(** * The analytics dashboard: chart bucketing, average rating, pagination

    A shallow embedding of the computations of the dashboard front end:

    - [chartData], the [useMemo] callback of [DashboardEntry] that turns the
      conversation history into a fixed-interval series for the line chart;
    - [calculateAverageRating] of the [App] component;
    - the sort-then-slice pagination of [RecentConversations] and
      [NotesPage].

    Conventions.  A JavaScript [Date] is its time value: an integral number
    of milliseconds since the epoch, or [NaN] for an invalid date.  A valid
    time value is a [Z]; a possibly invalid one is an [option Z] with [None]
    for [NaN].  Within the range of [Date] (|t| <= 8.64e15) and for the
    three interval lengths of the dashboard, the double-precision quotient
    [t / intervalMs] rounds to the same side of every integer as the exact
    quotient, so [Math.floor(t / intervalMs)] is the floor division [Z.div].
    What the component obtains from the JavaScript engine and its locale
    data (parsing a date string, rendering a label) is collected in a
    [Runtime] record, over which every statement quantifies.  The ratings
    averaged by [calculateAverageRating] are binary64 numbers ([float]),
    added and divided as JavaScript does. *)

From Stdlib Require Import String Ascii ZArith QArith Qminmax PrimFloat List Lia Lqa Bool Sorted Permutation.
From Equations Require Import Equations.
Import ListNotations.

Local Open Scope Z_scope.

(** ** The JavaScript runtime *)

Record Runtime := {
  (** [new Date(s).getTime()]; [None] is [NaN] (an invalid date). *)
  dateParse : string -> option Z;
  (** [d.toLocaleTimeString('en-US', { hour: '2-digit', minute: '2-digit' })] *)
  toLocaleTimeString : Z -> string;
  (** [d.toLocaleDateString('en-US', { month: 'short', day: 'numeric' })] *)
  toLocaleDateString : Z -> string
}.

(** ** Arrays *)

(** [Array.prototype.sort(compareFn)] for a consistent comparator.  The
    comparator yields a number ([None] is [NaN], read as [+0]).  When it is a
    consistent comparator for the elements, ECMAScript fixes the result: the
    stable sort, here the insertion sort that puts an element after every
    element it does not strictly precede.  For other comparators see
    [SortEngine] below. *)
Definition compareResult (v : option Z) : Z :=
  match v with Some z => z | None => 0 end.

Fixpoint sortInsert {A} (compareFn : A -> A -> option Z) (x : A) (l : list A) : list A :=
  match l with
  | [] => [x]
  | y :: l' =>
      if 0 <? compareResult (compareFn x y)
      then y :: sortInsert compareFn x l'
      else x :: y :: l'
  end.

Definition arraySort {A} (compareFn : A -> A -> option Z) (l : list A) : list A :=
  fold_right (sortInsert compareFn) [] l.

(** A consistent comparator for the elements of [l], as ECMAScript defines
    it: never [NaN], and [=], [<] and [>] under it are what an ordering
    requires ([a < b] is [compareFn a b < 0], and so on). *)
Definition ConsistentComparator {A} (compareFn : A -> A -> option Z) (l : list A)
    : Prop :=
  (forall a b, In a l -> In b l -> compareFn a b <> None)
  /\ (forall a, In a l -> compareResult (compareFn a a) = 0)
  /\ (forall a b, In a l -> In b l ->
        compareResult (compareFn a b) = 0 -> compareResult (compareFn b a) = 0)
  /\ (forall a b c, In a l -> In b l -> In c l ->
        compareResult (compareFn a b) = 0 -> compareResult (compareFn b c) = 0 ->
        compareResult (compareFn a c) = 0)
  /\ (forall a b c, In a l -> In b l -> In c l ->
        compareResult (compareFn a b) < 0 -> compareResult (compareFn b c) < 0 ->
        compareResult (compareFn a c) < 0)
  /\ (forall a b c, In a l -> In b l -> In c l ->
        0 < compareResult (compareFn a b) -> 0 < compareResult (compareFn b c) ->
        0 < compareResult (compareFn a c)).

(** [Array.prototype.sort] of a JavaScript engine.  The result is always a
    rearrangement of the array; it is the stable sort when the comparator is
    consistent for the elements, and implementation-defined otherwise (as
    when a comparison yields [NaN]). *)
Record SortEngine := {
  engineSort : forall A : Type, (A -> A -> option Z) -> list A -> list A;
  engineSort_permutation :
    forall A (compareFn : A -> A -> option Z) l,
      Permutation (engineSort A compareFn l) l;
  engineSort_consistent :
    forall A (compareFn : A -> A -> option Z) l,
      ConsistentComparator compareFn l ->
      engineSort A compareFn l = arraySort compareFn l
}.

(** One engine: the insertion sort for every comparator. *)
Definition referenceEngine : SortEngine.
Proof.
  refine {| engineSort := @arraySort |}.
  - intros A compareFn l.
    induction l as [|x l IH]; cbn [arraySort fold_right]; [constructor|].
    fold (arraySort compareFn l).
    transitivity (x :: arraySort compareFn l); [|now constructor].
    generalize (arraySort compareFn l) as sorted. intros sorted.
    induction sorted as [|y sorted IHs]; cbn [sortInsert]; [reflexivity|].
    destruct (0 <? compareResult (compareFn x y)); [|reflexivity].
    rewrite IHs. apply perm_swap.
  - reflexivity.
Defined.

(** [Array.prototype.slice(start, end)] for integral arguments: a negative
    index counts from the end, and both are clamped to the array. *)
Definition relativeIndex (len i : Z) : Z :=
  if i <? 0 then Z.max (len + i) 0 else Z.min i len.

Definition arraySlice {A} (l : list A) (start end_ : Z) : list A :=
  let len := Z.of_nat (length l) in
  let k := relativeIndex len start in
  let final := relativeIndex len end_ in
  firstn (Z.to_nat (Z.max (final - k) 0)) (skipn (Z.to_nat k) l).

(** ** Maps *)

(** A JavaScript [Map] with number keys: entries in insertion order;
    [set] on a key already present replaces the value where it stands. *)
Module JSMap.
Section WithValue.
Context {V : Type}.

Definition t := list (Z * V).

Definition empty : t := [].

Fixpoint get (k : Z) (m : t) : option V :=
  match m with
  | [] => None
  | (k', v) :: m' => if k =? k' then Some v else get k m'
  end.

Fixpoint set (k : Z) (v : V) (m : t) : t :=
  match m with
  | [] => [(k, v)]
  | (k', v') :: m' =>
      if k =? k' then (k', v) :: m' else (k', v') :: set k v m'
  end.

Definition entries (m : t) : list (Z * V) := m.

Definition keys (m : t) : list Z := map fst m.
End WithValue.
Arguments t : clear implicits.
End JSMap.

(** ** The stats API *)

Module User.
Record t := mk {
  user_id : string;
  email : string;
  username : string;
  created_at : string
}.
End User.

Module Conversation.
Record t := mk {
  conversation_id : string;
  user_id : string;
  created_at : string
}.
End Conversation.

Record StatsResponse := {
  total_users : Z;
  latest_users : list User.t;
  paid_subscription_count : Z;
  conversation_history : list Conversation.t
}.

(** ** DashboardEntry: the chart series *)

Inductive TimeRange := Range12h | Range1d | Range7d | Range30d.

(** The three variables assigned by the [switch (timeRange)]. *)
Definition lookbackMs (timeRange : TimeRange) : Z :=
  match timeRange with
  | Range12h => 12 * 60 * 60 * 1000
  | Range1d => 24 * 60 * 60 * 1000
  | Range7d => 7 * 24 * 60 * 60 * 1000
  | Range30d => 30 * 24 * 60 * 60 * 1000
  end.

Definition startTime (timeRange : TimeRange) (now : Z) : Z :=
  now - lookbackMs timeRange.

Definition intervalMs (timeRange : TimeRange) : Z :=
  match timeRange with
  | Range12h => 60 * 60 * 1000
  | Range1d => 2 * 60 * 60 * 1000
  | Range7d => 24 * 60 * 60 * 1000
  | Range30d => 24 * 60 * 60 * 1000
  end.

Definition formatLabel (rt : Runtime) (timeRange : TimeRange) (date : Z) : string :=
  match timeRange with
  | Range12h => toLocaleTimeString rt date
  | Range1d => toLocaleTimeString rt date
  | Range7d => toLocaleDateString rt date
  | Range30d => toLocaleDateString rt date
  end.

(** [Math.floor(t / intervalMs) * intervalMs] *)
Definition bucketTimestamp (timeRange : TimeRange) (t : Z) : Z :=
  (t / intervalMs timeRange) * intervalMs timeRange.

Record Bucket := { label : string; count : nat }.

(** The predicate of [stats.conversation_history.filter]: a comparison with
    [NaN] is false. *)
Definition inTimeRange (rt : Runtime) (timeRange : TimeRange) (now : Z)
    (conv : Conversation.t) : bool :=
  match dateParse rt (Conversation.created_at conv) with
  | Some convDate => (startTime timeRange now <=? convDate) && (convDate <=? now)
  | None => false
  end.

Definition filteredConversations (rt : Runtime) (timeRange : TimeRange) (now : Z)
    (history : list Conversation.t) : list Conversation.t :=
  filter (inTimeRange rt timeRange now) history.

(** The number of iterations the [while (currentTime <= now)] loop still has
    to run: its termination measure. *)
Definition remainingSteps (timeRange : TimeRange) (now currentTime : Z) : nat :=
  Z.to_nat ((now - currentTime) / intervalMs timeRange + 1).

(** The [while] loop that initialises all buckets. *)
Equations? initBuckets (rt : Runtime) (timeRange : TimeRange) (now : Z)
    (currentTime : Z) (buckets : JSMap.t Bucket) : JSMap.t Bucket
    by wf (remainingSteps timeRange now currentTime) lt :=
  initBuckets rt timeRange now currentTime buckets
    with Z_le_gt_dec currentTime now := {
    | left _ =>
        initBuckets rt timeRange now (currentTime + intervalMs timeRange)
          (JSMap.set (bucketTimestamp timeRange currentTime)
             {| label := formatLabel rt timeRange currentTime; count := 0 |}
             buckets);
    | right _ => buckets }.
Proof.
  unfold remainingSteps.
  assert (0 < intervalMs timeRange) by (destruct timeRange; reflexivity).
  replace (now - (currentTime + intervalMs timeRange))
    with ((now - currentTime) + (-1) * intervalMs timeRange) by ring.
  rewrite Z.div_add by lia.
  assert (0 <= (now - currentTime) / intervalMs timeRange)
    by (apply Z.div_pos; lia).
  lia.
Defined.

(** The body of [filteredConversations.forEach]: the bucket found under the
    conversation's key has its count incremented in place; nothing happens
    when there is none. *)
Definition countConversation (rt : Runtime) (timeRange : TimeRange)
    (buckets : JSMap.t Bucket) (conv : Conversation.t) : JSMap.t Bucket :=
  match dateParse rt (Conversation.created_at conv) with
  | Some convDate =>
      match JSMap.get (bucketTimestamp timeRange convDate) buckets with
      | Some bucket =>
          JSMap.set (bucketTimestamp timeRange convDate)
            {| label := label bucket; count := count bucket + 1 |} buckets
      | None => buckets
      end
  | None => buckets
  end.

Definition countedBuckets (rt : Runtime) (timeRange : TimeRange) (now : Z)
    (history : list Conversation.t) : JSMap.t Bucket :=
  fold_left (countConversation rt timeRange)
    (filteredConversations rt timeRange now history)
    (initBuckets rt timeRange now (startTime timeRange now) JSMap.empty).

(** The rows before the key is dropped, and the points handed to the chart. *)
Record Row := { row_time : string; row_conversations : nat; timestamp : Z }.

Record Point := { time : string; conversations : nat }.

Definition toRow (entry : Z * Bucket) : Row :=
  {| row_time := label (snd entry);
     row_conversations := count (snd entry);
     timestamp := fst entry |}.

Definition toPoint (r : Row) : Point :=
  {| time := row_time r; conversations := row_conversations r |}.

Definition sortedRows (rt : Runtime) (timeRange : TimeRange) (now : Z)
    (history : list Conversation.t) : list Row :=
  arraySort (fun a b => Some (timestamp a - timestamp b))
    (map toRow (JSMap.entries (countedBuckets rt timeRange now history))).

(** The callback of [useMemo]; [now] is the reading of [new Date()]. *)
Definition chartData (rt : Runtime) (stats : option StatsResponse)
    (timeRange : TimeRange) (now : Z) : list Point :=
  match stats with
  | None => []
  | Some stats =>
      map toPoint (sortedRows rt timeRange now (conversation_history stats))
  end.

(** The instants [currentTime] takes in the loop started at [currentTime]:
    [currentTime], [currentTime + intervalMs], ... while not after [now]. *)
Definition loopInstants (timeRange : TimeRange) (now currentTime : Z) : list Z :=
  map (fun j => currentTime + Z.of_nat j * intervalMs timeRange)
    (seq 0 (remainingSteps timeRange now currentTime)).



Definition sumConversations (data : list Point) : nat :=
  list_sum (map conversations data).

(** [Math.ceil(a / b)] for integers [a] and [b]. *)
Definition mathCeilDiv (a b : Z) : Z := - ((- a) / b).

(** ** App: the average rating *)

Module ConversationInfo.
Record t := mk {
  article_path : string;
  conversation_id : string;
  topic : string;
  generated_at : string;
  character_count : Z;
  word_count : Z;
  estimated_reading_time : Z;
  quality_rating : option float;
  understandability : option float;
  further_comments : option string;
  user_id : string
}.
End ConversationInfo.

Definition isNaN (x : float) : bool := negb (PrimFloat.eqb x x).

(** Truthiness of an optional number: [undefined], [+0], [-0] and [NaN] are
    falsy. *)
Definition truthy (n : option float) : bool :=
  match n with
  | Some q => negb (PrimFloat.eqb q 0) && negb (isNaN q)
  | None => false
  end.

(** [n || 0] *)
Definition orZero (n : option float) : float :=
  match n with
  | Some q => if truthy n then q else 0%float
  | None => 0%float
  end.

(** The length of an array as a number. *)
Fixpoint lengthNumber (n : nat) : float :=
  match n with
  | O => 0%float
  | S n' => (lengthNumber n' + 1)%float
  end.

(** [a / count] for a number [a] and a length [count]; [None] marks a
    division by zero. *)
Definition numberDiv (a : float) (count : nat) : option float :=
  if Nat.eqb count 0 then None else Some (a / lengthNumber count)%float.

Definition calculateAverageRating (conversations : list ConversationInfo.t)
    : option float :=
  let ratingsCount :=
    length (filter (fun c => truthy (ConversationInfo.quality_rating c)) conversations) in
  if Nat.eqb ratingsCount 0 then Some 0%float
  else
    let totalRating :=
      fold_left
        (fun sum conv => (sum + orZero (ConversationInfo.quality_rating conv))%float)
        conversations 0%float in
    numberDiv totalRating ratingsCount.

(** The sum the average is described by, added up from the left in the
    order of the list: every conversation contributes its rating, and 0 when
    the rating is missing or falsy. *)
Definition ratingSum (conversations : list ConversationInfo.t) : float :=
  fold_left
    (fun sum c => (sum + orZero (ConversationInfo.quality_rating c))%float)
    conversations 0%float.

Definition ratedConversations (conversations : list ConversationInfo.t)
    : list ConversationInfo.t :=
  filter (fun c => truthy (ConversationInfo.quality_rating c)) conversations.

(** The plain sum of the ratings, a missing rating counting 0. *)
Definition ratingOrZero (c : ConversationInfo.t) : float :=
  match ConversationInfo.quality_rating c with
  | Some q => q
  | None => 0%float
  end.

Definition plainRatingSum (conversations : list ConversationInfo.t) : float :=
  fold_left (fun sum c => (sum + ratingOrZero c)%float) conversations 0%float.

(** ** RecentConversations and NotesPage: pagination *)

(** [new Date(b).getTime() - new Date(a).getTime()]: [NaN] as soon as one
    of the two dates is invalid. *)
Definition dateDifference (rt : Runtime) (b a : string) : option Z :=
  match dateParse rt b, dateParse rt a with
  | Some tb, Some ta => Some (tb - ta)
  | _, _ => None
  end.

Module RecentConversations.
Definition conversationsPerPage : Z := 50.

Definition totalPages (conversations : list ConversationInfo.t) : Z :=
  mathCeilDiv (Z.of_nat (length conversations)) conversationsPerPage.

Definition sortedConversations (engine : SortEngine) (rt : Runtime)
    (conversations : list ConversationInfo.t) : list ConversationInfo.t :=
  engineSort engine _
    (fun a b => dateDifference rt (ConversationInfo.generated_at b)
                  (ConversationInfo.generated_at a))
    conversations.

Definition currentConversations (engine : SortEngine) (rt : Runtime)
    (conversations : list ConversationInfo.t) (currentPage : Z)
    : list ConversationInfo.t :=
  let indexOfLastConversation := currentPage * conversationsPerPage in
  let indexOfFirstConversation := indexOfLastConversation - conversationsPerPage in
  arraySlice (sortedConversations engine rt conversations)
    indexOfFirstConversation indexOfLastConversation.
End RecentConversations.

Module NoteInfo.
Record t := mk {
  file_name : string;
  created_at : string;
  last_modified : option string;
  user_id : string
}.
End NoteInfo.

Module NotesPage.
Definition notesPerPage : Z := 25.

Definition totalPages (notes : list NoteInfo.t) : Z :=
  mathCeilDiv (Z.of_nat (length notes)) notesPerPage.

Definition sortedNotes (engine : SortEngine) (rt : Runtime)
    (notes : list NoteInfo.t) : list NoteInfo.t :=
  engineSort engine _
    (fun a b => dateDifference rt (NoteInfo.created_at b) (NoteInfo.created_at a))
    notes.

Definition currentNotes (engine : SortEngine) (rt : Runtime)
    (notes : list NoteInfo.t) (currentPage : Z) : list NoteInfo.t :=
  let indexOfLastNote := currentPage * notesPerPage in
  let indexOfFirstNote := indexOfLastNote - notesPerPage in
  arraySlice (sortedNotes engine rt notes) indexOfFirstNote indexOfLastNote.
End NotesPage.

(** The page numbers [1 .. totalPages]. *)
Definition pageNumbers (totalPages : Z) : list Z :=
  map (fun j => Z.of_nat j + 1) (seq 0 (Z.to_nat totalPages)).

(** The timestamp order of a sorted page: no invalid date, later first. *)
Definition notEarlier (rt : Runtime) (a b : string) : Prop :=
  exists ta tb, dateParse rt a = Some ta /\ dateParse rt b = Some tb /\ tb <= ta.

(** ** A reference runtime: the UTC time zone

    One runtime the statements can be evaluated in.  It parses the date-time
    strings [YYYY-MM-DDTHH:mm:ssZ] and renders instants in UTC the way the
    en-US locale does (["12:34 AM"], ["Jan 2"]). *)
Module Utc.
Definition digit (c : ascii) : option Z :=
  let n := Z.of_nat (nat_of_ascii c) in
  if (48 <=? n) && (n <=? 57) then Some (n - 48) else None.

Definition twoDigits (a b : ascii) : option Z :=
  match digit a, digit b with
  | Some x, Some y => Some (10 * x + y)
  | _, _ => None
  end.

Definition fourDigits (a b c d : ascii) : option Z :=
  match twoDigits a b, twoDigits c d with
  | Some x, Some y => Some (100 * x + y)
  | _, _ => None
  end.

(** Days from 1970-01-01 to the given day of the proleptic Gregorian
    calendar. *)
Definition daysFromCivil (y m d : Z) : Z :=
  let y' := if m <=? 2 then y - 1 else y in
  let era := y' / 400 in
  let yoe := y' - era * 400 in
  let mp := (m + 9) mod 12 in
  let doy := (153 * mp + 2) / 5 + d - 1 in
  let doe := yoe * 365 + yoe / 4 - yoe / 100 + doy in
  era * 146097 + doe - 719468.

(** The month (1-12) and the day of the month of a day number. *)
Definition monthDayFromDays (z : Z) : Z * Z :=
  let z' := z + 719468 in
  let era := z' / 146097 in
  let doe := z' - era * 146097 in
  let yoe := (doe - doe / 1460 + doe / 36524 - doe / 146096) / 365 in
  let doy := doe - (365 * yoe + yoe / 4 - yoe / 100) in
  let mp := (5 * doy + 2) / 153 in
  let d := doy - (153 * mp + 2) / 5 + 1 in
  let m := if mp <? 10 then mp + 3 else mp - 9 in
  (m, d).

Definition isLeap (y : Z) : bool :=
  ((y mod 4 =? 0) && negb (y mod 100 =? 0)) || (y mod 400 =? 0).

Definition daysInMonth (y m : Z) : Z :=
  if m =? 2 then (if isLeap y then 29 else 28)
  else if (m =? 4) || (m =? 6) || (m =? 9) || (m =? 11) then 30
  else 31.

Definition msPerDay : Z := 24 * 60 * 60 * 1000.

Definition parse (s : string) : option Z :=
  match list_ascii_of_string s with
  | [y1; y2; y3; y4; "-"; m1; m2; "-"; d1; d2; "T";
     h1; h2; ":"; n1; n2; ":"; s1; s2; "Z"]%char =>
      match fourDigits y1 y2 y3 y4, twoDigits m1 m2, twoDigits d1 d2,
            twoDigits h1 h2, twoDigits n1 n2, twoDigits s1 s2 with
      | Some y, Some m, Some d, Some h, Some n, Some sec =>
          if (1 <=? m) && (m <=? 12) && (1 <=? d) && (d <=? daysInMonth y m)
             && (h <=? 23) && (n <=? 59) && (sec <=? 59)
          then Some (daysFromCivil y m d * msPerDay
                     + ((h * 60 + n) * 60 + sec) * 1000)
          else None
      | _, _, _, _, _, _ => None
      end
  | _ => None
  end.

Definition digitChar (d : Z) : ascii := ascii_of_nat (48 + Z.to_nat d).

Definition showTwoDigits (n : Z) : string :=
  String (digitChar (n / 10)) (String (digitChar (n mod 10)) EmptyString).

Definition showDay (n : Z) : string :=
  if n <? 10 then String (digitChar n) EmptyString else showTwoDigits n.

Definition monthName (m : Z) : string :=
  nth (Z.to_nat (m - 1))
    ["Jan"; "Feb"; "Mar"; "Apr"; "May"; "Jun";
     "Jul"; "Aug"; "Sep"; "Oct"; "Nov"; "Dec"]%string ""%string.

Definition timeString (t : Z) : string :=
  let h := (t / (60 * 60 * 1000)) mod 24 in
  let n := (t / (60 * 1000)) mod 60 in
  let h12 := if h mod 12 =? 0 then 12 else h mod 12 in
  (showTwoDigits h12 ++ ":" ++ showTwoDigits n
     ++ (if (h <? 12)%Z then " AM" else " PM"))%string.

Definition dateString (t : Z) : string :=
  let (m, d) := monthDayFromDays (t / msPerDay) in
  (monthName m ++ " " ++ showDay d)%string.

Definition runtime : Runtime :=
  {| dateParse := parse;
     toLocaleTimeString := timeString;
     toLocaleDateString := dateString |}.
End Utc.

(** ** Vocabulary of the statements *)

(** The key under which a conversation is counted; none for an invalid
    date. *)
Definition conversationKey (rt : Runtime) (timeRange : TimeRange)
    (conv : Conversation.t) : option Z :=
  option_map (bucketTimestamp timeRange)
    (dateParse rt (Conversation.created_at conv)).

Definition keyMatches (rt : Runtime) (timeRange : TimeRange) (k : Z)
    (conv : Conversation.t) : bool :=
  match conversationKey rt timeRange conv with
  | Some k' => k' =? k
  | None => false
  end.

(** How many of the conversations [convs] have the key [k]. *)
Definition hits (rt : Runtime) (timeRange : TimeRange)
    (convs : list Conversation.t) (k : Z) : nat :=
  length (filter (keyMatches rt timeRange k) convs).

(** The bucket the initialisation loop creates at the instant [t]. *)
Definition freshEntry (rt : Runtime) (timeRange : TimeRange) (t : Z) : Z * Bucket :=
  (bucketTimestamp timeRange t,
   {| label := formatLabel rt timeRange t; count := 0 |}).

(** An entry after the conversations [convs] have been counted. *)
Definition countedEntry (rt : Runtime) (timeRange : TimeRange)
    (convs : list Conversation.t) (entry : Z * Bucket) : Z * Bucket :=
  (fst entry,
   {| label := label (snd entry);
      count := count (snd entry) + hits rt timeRange convs (fst entry) |}).

(** The row of the bucket created at the instant [t], once [convs] have been
    counted. *)
Definition rowAt (rt : Runtime) (timeRange : TimeRange)
    (convs : list Conversation.t) (t : Z) : Row :=
  {| row_time := formatLabel rt timeRange t;
     row_conversations := hits rt timeRange convs (bucketTimestamp timeRange t);
     timestamp := bucketTimestamp timeRange t |}.

(** The keys under the rows of the chart, in the order of the rows. *)
Definition chartKeys (rt : Runtime) (timeRange : TimeRange) (now : Z)
    (history : list Conversation.t) : list Z :=
  map timestamp (sortedRows rt timeRange now history).

(** The number of whole intervals in the lookback window. *)
Definition lookbackIntervals (timeRange : TimeRange) : nat :=
  Z.to_nat (lookbackMs timeRange / intervalMs timeRange).

Definition withHistory (s : StatsResponse) (history : list Conversation.t)
    : StatsResponse :=
  {| total_users := total_users s;
     latest_users := latest_users s;
     paid_subscription_count := paid_subscription_count s;
     conversation_history := history |}.


(** The elements of [l] at the indices [from <= i < to]. *)
Definition segment {A} (l : list A) (from to : nat) : list A :=
  firstn (to - from) (skipn from l).

(** The time value of a date string known to parse. *)
Definition timeOf (rt : Runtime) (s : string) : Z :=
  match dateParse rt s with Some t => t | None => 0 end.

(** What pagination promises of a component that shows the items [l] by
    pages of [perPage], sorted on the date [dateOf]: [sortedOf l] is [l]
    rearranged, in descending order of time when every date parses; each
    page [p] in [1 .. totalPages l] is the segment of it from
    [(p-1) * perPage] to [min (p * perPage) (length l)], which holds between
    1 and [perPage] items; the pages in sequence make up the sorted list. *)
Definition Paginates {A} (rt : Runtime) (dateOf : A -> string) (perPage : Z)
    (totalPages : list A -> Z) (sortedOf : list A -> list A)
    (pageOf : list A -> Z -> list A) : Prop :=
  forall l : list A,
    totalPages l = mathCeilDiv (Z.of_nat (length l)) perPage
    /\ Permutation (sortedOf l) l
    /\ ((forall x, In x l -> dateParse rt (dateOf x) <> None) ->
        StronglySorted (fun a b => notEarlier rt (dateOf a) (dateOf b)) (sortedOf l))
    /\ (forall p, 1 <= p <= totalPages l ->
          pageOf l p
          = segment (sortedOf l) (Z.to_nat ((p - 1) * perPage))
              (Z.to_nat (Z.min (p * perPage) (Z.of_nat (length l))))
          /\ (1 <= length (pageOf l p))%nat
          /\ Z.of_nat (length (pageOf l p)) <= perPage)
    /\ concat (map (pageOf l) (pageNumbers (totalPages l))) = sortedOf l.

(** [a] may stand before [b] in a sorted array: the comparator does not ask
    for the opposite order. *)
Definition inOrder {A} (compareFn : A -> A -> option Z) (a b : A) : Prop :=
  compareResult (compareFn a b) <= 0.


(** ** Sample inputs *)

Module Sample.
(** 2024-01-02T12:00:00Z and 2024-01-02T12:34:56Z *)
Definition noon : Z := 1704196800000.
Definition afterNoon : Z := 1704198896000.

Definition conv (id date : string) : Conversation.t :=
  {| Conversation.conversation_id := id;
     Conversation.user_id := "u1";
     Conversation.created_at := date |}.

Definition statsOf (history : list Conversation.t) : StatsResponse :=
  {| total_users := 3; latest_users := []; paid_subscription_count := 1;
     conversation_history := history |}.

(** One conversation at the start of the 12h window ending at [noon], one
    at its end, one a day too early, one without a readable date. *)
Definition history : list Conversation.t :=
  [ conv "c1" "2024-01-02T00:00:00Z"; conv "c2" "2024-01-02T12:00:00Z";
    conv "c3" "2024-01-01T00:00:00Z"; conv "c4" "yesterday" ].

Definition response : StatsResponse := statsOf history.


Definition rated (id : string) (rating : option float) : ConversationInfo.t :=
  {| ConversationInfo.article_path := "a"; ConversationInfo.conversation_id := id;
     ConversationInfo.topic := "t";
     ConversationInfo.generated_at := "2024-01-02T00:00:00Z";
     ConversationInfo.character_count := 10; ConversationInfo.word_count := 2;
     ConversationInfo.estimated_reading_time := 1;
     ConversationInfo.quality_rating := rating;
     ConversationInfo.understandability := None;
     ConversationInfo.further_comments := None;
     ConversationInfo.user_id := "u1" |}.

Definition ratings : list ConversationInfo.t :=
  [ rated "c1" (Some 4%float); rated "c2" (Some 0%float); rated "c3" None;
    rated "c4" (Some 5%float); rated "c5" (Some 5%float) ].

Definition note (name date : string) : NoteInfo.t :=
  {| NoteInfo.file_name := name; NoteInfo.created_at := date;
     NoteInfo.last_modified := None; NoteInfo.user_id := "u1" |}.


(** Twenty-six notes: two pages. *)
Definition notes : list NoteInfo.t :=
  note "early" "2024-01-01T00:00:00Z"
    :: repeat (note "n" "2024-01-02T00:00:00Z") 24
    ++ [note "late" "2024-01-03T00:00:00Z"].
End Sample.

(** ** DashboardEntry with the user timeline

    The later version of the component computes two series in one pass,
    one for [all_users_timeline] and one for [conversation_history], over
    the same buckets. *)

Module UserTimeline.
Record t := mk {
  user_id : string;
  created_at : string
}.
End UserTimeline.

(** The stats with the timeline of all users; [all_users_timeline] may be
    missing from the response ([None]), which the component reads as
    [stats.all_users_timeline || []]. *)
Record TimelineStats := {
  response : StatsResponse;
  all_users_timeline : option (list UserTimeline.t)
}.

Module UserPoint.
Record t := mk { time : string; users : nat }.
End UserPoint.

Module Timeline.
Definition inTimeRangeUser (rt : Runtime) (timeRange : TimeRange) (now : Z)
    (user : UserTimeline.t) : bool :=
  match dateParse rt (UserTimeline.created_at user) with
  | Some userDate => (startTime timeRange now <=? userDate) && (userDate <=? now)
  | None => false
  end.

Definition filteredUsers (rt : Runtime) (timeRange : TimeRange) (now : Z)
    (stats : TimelineStats) : list UserTimeline.t :=
  filter (inTimeRangeUser rt timeRange now)
    (match all_users_timeline stats with Some users => users | None => [] end).

(** The loop that initialises the buckets of both maps. *)
Equations? initBucketPair (rt : Runtime) (timeRange : TimeRange) (now : Z)
    (currentTime : Z) (userBuckets conversationBuckets : JSMap.t Bucket)
    : JSMap.t Bucket * JSMap.t Bucket
    by wf (remainingSteps timeRange now currentTime) lt :=
  initBucketPair rt timeRange now currentTime userBuckets conversationBuckets
    with Z_le_gt_dec currentTime now := {
    | left _ =>
        initBucketPair rt timeRange now (currentTime + intervalMs timeRange)
          (JSMap.set (bucketTimestamp timeRange currentTime)
             {| label := formatLabel rt timeRange currentTime; count := 0 |}
             userBuckets)
          (JSMap.set (bucketTimestamp timeRange currentTime)
             {| label := formatLabel rt timeRange currentTime; count := 0 |}
             conversationBuckets);
    | right _ => (userBuckets, conversationBuckets) }.
Proof.
  unfold remainingSteps.
  match goal with
  | |- (Z.to_nat ((_ - (_ + intervalMs ?r)) / _ + 1) < _)%nat =>
      assert (0 < intervalMs r) by (destruct r; reflexivity);
      replace (now - (currentTime + intervalMs r))
        with ((now - currentTime) + (-1) * intervalMs r) by ring;
      rewrite Z.div_add by lia;
      assert (0 <= (now - currentTime) / intervalMs r)
        by (apply Z.div_pos; lia)
  end.
  lia.
Defined.

(** The body of [filteredUsers.forEach]. *)
Definition countUser (rt : Runtime) (timeRange : TimeRange)
    (buckets : JSMap.t Bucket) (user : UserTimeline.t) : JSMap.t Bucket :=
  match dateParse rt (UserTimeline.created_at user) with
  | Some userDate =>
      match JSMap.get (bucketTimestamp timeRange userDate) buckets with
      | Some bucket =>
          JSMap.set (bucketTimestamp timeRange userDate)
            {| label := label bucket; count := count bucket + 1 |} buckets
      | None => buckets
      end
  | None => buckets
  end.

Definition toUserPoint (r : Row) : UserPoint.t :=
  {| UserPoint.time := row_time r; UserPoint.users := row_conversations r |}.

(** [Array.from(buckets.entries()).map(...).sort(...)], before the key is
    dropped. *)
Definition rowsOf (buckets : JSMap.t Bucket) : list Row :=
  arraySort (fun a b => Some (timestamp a - timestamp b))
    (map toRow (JSMap.entries buckets)).

Record ChartSeries := {
  userChartData : list UserPoint.t;
  conversationChartData : list Point
}.

Definition userRows (rt : Runtime) (stats : TimelineStats)
    (timeRange : TimeRange) (now : Z) : list Row :=
  rowsOf
    (fold_left (countUser rt timeRange)
       (filteredUsers rt timeRange now stats)
       (fst (initBucketPair rt timeRange now (startTime timeRange now)
               JSMap.empty JSMap.empty))).

Definition conversationRows (rt : Runtime) (stats : TimelineStats)
    (timeRange : TimeRange) (now : Z) : list Row :=
  rowsOf
    (fold_left (countConversation rt timeRange)
       (filteredConversations rt timeRange now
          (conversation_history (response stats)))
       (snd (initBucketPair rt timeRange now (startTime timeRange now)
               JSMap.empty JSMap.empty))).

(** The callback of [useMemo]. *)
Definition processTimelineData (rt : Runtime) (stats : option TimelineStats)
    (timeRange : TimeRange) (now : Z) : ChartSeries :=
  match stats with
  | None => {| userChartData := []; conversationChartData := [] |}
  | Some stats =>
      {| userChartData := map toUserPoint (userRows rt stats timeRange now);
         conversationChartData :=
           map toPoint (conversationRows rt stats timeRange now) |}
  end.

(** A user of the timeline seen as an event of the conversation chart: the
    counting reads the date only. *)
Definition asConversation (user : UserTimeline.t) : Conversation.t :=
  {| Conversation.conversation_id := "";
     Conversation.user_id := UserTimeline.user_id user;
     Conversation.created_at := UserTimeline.created_at user |}.

Definition timelineOf (stats : TimelineStats) : list UserTimeline.t :=
  match all_users_timeline stats with Some users => users | None => [] end.
End Timeline.

(** [stats.latest_users.slice(0, 10)], the rows of the "Latest Users" table. *)
Definition latestUsersShown (stats : StatsResponse) : list User.t :=
  arraySlice (latest_users stats) 0 10.

(** ** Page navigation *)

(** The buttons of the pagers.  A disabled button does not react to a
    click. *)
Inductive PagerButton := FirstPage | PreviousPage | NextPage | LastPage.

(** The pagers of [RecentConversations] and of [NotesPage] are the same: a
    pager above the list with the previous and next buttons, and one below
    it, with all four buttons, which is rendered when [totalPages > 1]. *)
Definition clickPager (totalPages currentPage : Z) (button : PagerButton) : Z :=
  match button with
  | PreviousPage =>
      if currentPage =? 1 then currentPage else Z.max 1 (currentPage - 1)
  | NextPage =>
      if currentPage =? totalPages then currentPage
      else Z.min totalPages (currentPage + 1)
  | FirstPage =>
      if (1 <? totalPages) && negb (currentPage =? 1) then 1 else currentPage
  | LastPage =>
      if (1 <? totalPages) && negb (currentPage =? totalPages) then totalPages
      else currentPage
  end.

(** The page after a sequence of clicks; [useState(1)] is the first page. *)
Definition pageAfter (totalPages : Z) (clicks : list PagerButton) : Z :=
  fold_left (clickPager totalPages) clicks 1.

(** "Showing [first] - [last] of [length]" in [RecentConversations] and
    [NotesPage]. *)
Definition showingRange (perPage len currentPage : Z) : Z * Z :=
  let indexOfLast := currentPage * perPage in
  let indexOfFirst := indexOfLast - perPage in
  (indexOfFirst + 1, Z.min indexOfLast len).

(** ** UserBackgroundInfo *)

Module StatInfo.
Record t := mk { count : Z; percentage : Q }.
End StatInfo.

Module UserBackgroundInfo.
(** An object used as a dictionary is the list of its entries, in the order
    [Object.entries] gives them. *)
Definition Dictionary := list (string * StatInfo.t).

Record EducationStats := {
  education_levels : Dictionary;
  study_fields : Dictionary;
  institutions : Dictionary;
  total_users : Z
}.

Inductive Category := Education | Fields | Institutions.

Definition itemsPerPage : Z := 25.

Record CategoryData := { title : string; data : Dictionary }.

Definition getCategoryData (stats : EducationStats) (activeCategory : Category)
    : CategoryData :=
  match activeCategory with
  | Education => {| title := "Education Levels"; data := education_levels stats |}
  | Fields => {| title := "Study Fields"; data := study_fields stats |}
  | Institutions => {| title := "Institutions"; data := institutions stats |}
  end.

Definition sortedItems (stats : EducationStats) (activeCategory : Category)
    : list (string * StatInfo.t) :=
  arraySort
    (fun a b => Some (StatInfo.count (snd b) - StatInfo.count (snd a)))
    (data (getCategoryData stats activeCategory)).

Definition totalPages (stats : EducationStats) (activeCategory : Category) : Z :=
  mathCeilDiv (Z.of_nat (length (sortedItems stats activeCategory))) itemsPerPage.

Definition currentItems (stats : EducationStats) (activeCategory : Category)
    (currentPage : Z) : list (string * StatInfo.t) :=
  arraySlice (sortedItems stats activeCategory)
    ((currentPage - 1) * itemsPerPage) (currentPage * itemsPerPage).

(** "Showing [first] - [last] of [length] items" *)
Definition showingRange (stats : EducationStats) (activeCategory : Category)
    (currentPage : Z) : Z * Z :=
  let len := Z.of_nat (length (sortedItems stats activeCategory)) in
  (Z.min ((currentPage - 1) * itemsPerPage + 1) len,
   Z.min (currentPage * itemsPerPage) len).

(** The pager is rendered when [totalPages > 1], with the previous and next
    buttons only. *)
Definition clickPager (totalPages currentPage : Z) (button : PagerButton) : Z :=
  if 1 <? totalPages then
    match button with
    | PreviousPage =>
        if currentPage =? 1 then currentPage else Z.max 1 (currentPage - 1)
    | NextPage =>
        if currentPage =? totalPages then currentPage
        else Z.min totalPages (currentPage + 1)
    | FirstPage | LastPage => currentPage
    end
  else currentPage.
End UserBackgroundInfo.

(** ** App: the loading screen *)

(** [updateProgress]: [setLoadingProgress(prev => Math.min(prev + 20, 90))] *)
Definition updateProgress (prev : Z) : Z := Z.min (prev + 20) 90.

(** The progress after [setLoadingProgress(10)] and [fetches] completed
    requests, each followed by [updateProgress()]. *)
Definition progressAfter (fetches : nat) : Z :=
  Nat.iter fetches updateProgress 10.

(** [Math.max(5 - (loadingProgress / 20), 0)], the estimated seconds. *)
Definition estimatedTime (loadingProgress : Z) : Q :=
  Qmax (5 - inject_Z loadingProgress / 20) 0.

(** ** RecentConversations: the card of a conversation *)

(** Truthiness of an optional string: [undefined] and [""] are falsy. *)
Definition truthyString (s : option string) : bool :=
  match s with
  | Some EmptyString => false
  | Some _ => true
  | None => false
  end.

Definition isDefined {A} (x : option A) : bool :=
  match x with Some _ => true | None => false end.

(** [(quality_rating || understandability || further_comments) && ...]:
    whether the "Additional Information" block is rendered. *)
Definition showsAdditionalInformation (c : ConversationInfo.t) : bool :=
  truthy (ConversationInfo.quality_rating c)
  || truthy (ConversationInfo.understandability c)
  || truthyString (ConversationInfo.further_comments c).

(** Inside the block: [quality_rating !== undefined && ...]. *)
Definition showsQualityRating (c : ConversationInfo.t) : bool :=
  showsAdditionalInformation c && isDefined (ConversationInfo.quality_rating c).


(** ** More sample inputs *)

Module Sample2.
Definition user (id date : string) : UserTimeline.t :=
  {| UserTimeline.user_id := id; UserTimeline.created_at := date |}.

Definition timelineStats (users : option (list UserTimeline.t)) : TimelineStats :=
  {| response := Sample.response; all_users_timeline := users |}.

Definition users : list UserTimeline.t :=
  [ user "u1" "2024-01-02T03:10:00Z"; user "u2" "2024-01-02T03:50:00Z";
    user "u3" "2023-12-31T00:00:00Z" ].

Definition item (name : string) (n : Z) : string * StatInfo.t :=
  (name, {| StatInfo.count := n; StatInfo.percentage := 0 |}).

Definition education : UserBackgroundInfo.EducationStats :=
  {| UserBackgroundInfo.education_levels :=
       [ item "BSc" 3; item "MSc" 7; item "PhD" 3; item "Other" 1 ];
     UserBackgroundInfo.study_fields := repeat (item "f" 2) 30;
     UserBackgroundInfo.institutions := [];
     UserBackgroundInfo.total_users := 14 |}.
End Sample2.

(** * Properties *)

(** ** Intervals and keys *)

Lemma intervalMs_pos timeRange : 0 < intervalMs timeRange.
Proof. destruct timeRange; reflexivity. Qed.

Lemma lookbackMs_intervals timeRange :
  lookbackMs timeRange = Z.of_nat (lookbackIntervals timeRange) * intervalMs timeRange.
Proof. destruct timeRange; reflexivity. Qed.

Lemma bucketTimestamp_shift timeRange t j :
  bucketTimestamp timeRange (t + j * intervalMs timeRange)
  = bucketTimestamp timeRange t + j * intervalMs timeRange.
Proof.
  unfold bucketTimestamp.
  pose proof (intervalMs_pos timeRange).
  rewrite Z.div_add by lia. ring.
Qed.

Lemma bucketTimestamp_bounds timeRange t :
  bucketTimestamp timeRange t <= t < bucketTimestamp timeRange t + intervalMs timeRange.
Proof.
  unfold bucketTimestamp.
  pose proof (intervalMs_pos timeRange) as Hpos.
  pose proof (Z.div_mod t (intervalMs timeRange)) as Hdm.
  pose proof (Z.mod_pos_bound t (intervalMs timeRange) Hpos).
  lia.
Qed.

Lemma bucketTimestamp_offset timeRange t :
  t - bucketTimestamp timeRange t = t mod intervalMs timeRange.
Proof.
  unfold bucketTimestamp.
  pose proof (intervalMs_pos timeRange) as Hpos.
  pose proof (Z.div_mod t (intervalMs timeRange)). lia.
Qed.

Lemma bucketTimestamp_aligned timeRange t :
  bucketTimestamp timeRange t mod intervalMs timeRange = 0.
Proof. unfold bucketTimestamp. apply Z.mod_mul. pose proof (intervalMs_pos timeRange). lia. Qed.

Lemma bucketTimestamp_of_aligned timeRange k :
  k mod intervalMs timeRange = 0 -> bucketTimestamp timeRange k = k.
Proof.
  intros Hk. unfold bucketTimestamp.
  pose proof (intervalMs_pos timeRange) as Hpos.
  pose proof (Z.div_mod k (intervalMs timeRange)). lia.
Qed.

Lemma bucketTimestamp_monotone timeRange t u :
  t <= u -> bucketTimestamp timeRange t <= bucketTimestamp timeRange u.
Proof.
  intros Hle. unfold bucketTimestamp.
  pose proof (intervalMs_pos timeRange) as Hpos.
  apply Z.mul_le_mono_nonneg_r; [lia|].
  apply Z.div_le_mono; lia.
Qed.

(** ** The initialisation loop *)

Lemma remainingSteps_done timeRange now currentTime :
  now < currentTime -> remainingSteps timeRange now currentTime = 0%nat.
Proof.
  intros Hlt. unfold remainingSteps.
  pose proof (intervalMs_pos timeRange) as Hpos.
  assert ((now - currentTime) / intervalMs timeRange < 0)
    by (apply Z.div_lt_upper_bound; lia).
  lia.
Qed.

Lemma remainingSteps_step timeRange now currentTime :
  currentTime <= now ->
  remainingSteps timeRange now currentTime
  = S (remainingSteps timeRange now (currentTime + intervalMs timeRange)).
Proof.
  intros Hle. unfold remainingSteps.
  pose proof (intervalMs_pos timeRange) as Hpos.
  replace (now - (currentTime + intervalMs timeRange))
    with ((now - currentTime) + (-1) * intervalMs timeRange) by ring.
  rewrite Z.div_add by lia.
  assert (0 <= (now - currentTime) / intervalMs timeRange)
    by (apply Z.div_pos; lia).
  lia.
Qed.

Lemma loopInstants_done timeRange now currentTime :
  now < currentTime -> loopInstants timeRange now currentTime = [].
Proof.
  intros Hlt. unfold loopInstants.
  rewrite remainingSteps_done by assumption. reflexivity.
Qed.

Lemma loopInstants_step timeRange now currentTime :
  currentTime <= now ->
  loopInstants timeRange now currentTime
  = currentTime :: loopInstants timeRange now (currentTime + intervalMs timeRange).
Proof.
  intros Hle. unfold loopInstants.
  rewrite remainingSteps_step by assumption.
  cbn [seq map]. f_equal; [lia|].
  rewrite <- seq_shift, map_map.
  apply map_ext. intros j. lia.
Qed.

(** The loop sets one fresh bucket per instant, in order. *)
Lemma initBuckets_fold rt timeRange now currentTime buckets :
  initBuckets rt timeRange now currentTime buckets
  = fold_left
      (fun b t => JSMap.set (fst (freshEntry rt timeRange t))
                    (snd (freshEntry rt timeRange t)) b)
      (loopInstants timeRange now currentTime) buckets.
Proof.
  funelim (initBuckets rt timeRange now currentTime buckets).
  - rewrite loopInstants_step by assumption. cbn [fold_left]. assumption.
  - rewrite loopInstants_done by lia. reflexivity.
Qed.

(** ** Sorting *)

Section ArraySort.
Context {A : Type} (compareFn : A -> A -> option Z).

(** The comparator never asks for both orders of a pair. *)
Hypothesis compareFn_antisym :
  forall a b, 0 < compareResult (compareFn a b) -> compareResult (compareFn b a) <= 0.

Lemma sortInsert_perm x l : Permutation (sortInsert compareFn x l) (x :: l).
Proof.
  induction l as [|y l IH]; cbn [sortInsert].
  - reflexivity.
  - destruct (0 <? compareResult (compareFn x y)).
    + rewrite IH. apply perm_swap.
    + reflexivity.
Qed.

Lemma arraySort_perm l : Permutation (arraySort compareFn l) l.
Proof.
  induction l as [|x l IH]; cbn [arraySort fold_right].
  - reflexivity.
  - fold (arraySort compareFn l). rewrite sortInsert_perm. now constructor.
Qed.

Lemma arraySort_length l : length (arraySort compareFn l) = length l.
Proof. apply Permutation_length, arraySort_perm. Qed.

Lemma sortInsert_HdRel a x l :
  inOrder compareFn a x -> HdRel (inOrder compareFn) a l -> HdRel (inOrder compareFn) a (sortInsert compareFn x l).
Proof.
  intros Hax Hal. destruct l as [|y l]; cbn [sortInsert].
  - now constructor.
  - destruct (0 <? compareResult (compareFn x y)).
    + inversion Hal; subst. now constructor.
    + now constructor.
Qed.

Lemma sortInsert_sorted x l :
  Sorted (inOrder compareFn) l -> Sorted (inOrder compareFn) (sortInsert compareFn x l).
Proof.
  induction 1 as [|y l Hsorted IH Hhd]; cbn [sortInsert].
  - repeat constructor.
  - destruct (0 <? compareResult (compareFn x y)) eqn:Hcmp.
    + constructor; [assumption|].
      apply sortInsert_HdRel; [|assumption].
      apply compareFn_antisym. now apply Z.ltb_lt.
    + constructor; [now constructor|].
      constructor. unfold inOrder. apply Z.ltb_ge in Hcmp. lia.
Qed.

(** Neighbours of the sorted array are in comparator order. *)
Lemma arraySort_sorted l : Sorted (inOrder compareFn) (arraySort compareFn l).
Proof.
  induction l as [|x l IH]; cbn [arraySort fold_right].
  - constructor.
  - now apply sortInsert_sorted.
Qed.

(** An array already in order is left as it is. *)
Lemma arraySort_sorted_id l : Sorted (inOrder compareFn) l -> arraySort compareFn l = l.
Proof.
  induction 1 as [|x l Hsorted IH Hhd]; cbn [arraySort fold_right].
  - reflexivity.
  - fold (arraySort compareFn l). rewrite IH.
    destruct Hhd as [|y l Hxy]; cbn [sortInsert]; [reflexivity|].
    unfold inOrder in Hxy.
    destruct (0 <? compareResult (compareFn x y)) eqn:Hcmp; [|reflexivity].
    apply Z.ltb_lt in Hcmp. lia.
Qed.
End ArraySort.

Lemma StronglySorted_map_iff {A B} (f : A -> B) (R : B -> B -> Prop) l :
  StronglySorted (fun a b => R (f a) (f b)) l <-> StronglySorted R (map f l).
Proof.
  induction l as [|x l IH]; cbn [map].
  - split; constructor.
  - split; intros H; inversion H; subst; constructor;
      try (apply IH; assumption).
    + now apply Forall_map.
    + now apply Forall_map.
Qed.

Lemma StronglySorted_le_NoDup_lt (l : list Z) :
  StronglySorted Z.le l -> NoDup l -> StronglySorted Z.lt l.
Proof.
  induction 1 as [|x l Hs IH Hall]; intros Hnd; constructor.
  - apply IH. now inversion Hnd.
  - inversion Hnd as [|? ? Hnotin Hnd']; subst.
    rewrite Forall_forall in *. intros y Hy.
    specialize (Hall y Hy).
    assert (x <> y) by (intros ->; contradiction).
    lia.
Qed.

Lemma StronglySorted_lt_NoDup (l : list Z) : StronglySorted Z.lt l -> NoDup l.
Proof.
  induction 1 as [|x l Hs IH Hall]; constructor; [|assumption].
  intros Hin. rewrite Forall_forall in Hall. specialize (Hall x Hin). lia.
Qed.

(** ** Maps *)

Section MapFacts.
Context {V : Type}.
Implicit Types (m : JSMap.t V) (k : Z) (v : V).

Lemma get_None_iff k m : JSMap.get k m = None <-> ~ In k (JSMap.keys m).
Proof.
  induction m as [|[k' v'] m IH]; cbn [JSMap.get JSMap.keys map fst In].
  - tauto.
  - destruct (k =? k') eqn:Hk.
    + apply Z.eqb_eq in Hk. split; [discriminate|]. intros H. exfalso. auto.
    + apply Z.eqb_neq in Hk. unfold JSMap.keys in IH. rewrite IH.
      split; [intros H [E|E]; auto | intros H E; auto].
Qed.

Lemma get_In k m : In k (JSMap.keys m) -> exists v, JSMap.get k m = Some v.
Proof.
  intros Hin. destruct (JSMap.get k m) eqn:Hget; [eauto|].
  apply get_None_iff in Hget. contradiction.
Qed.

Lemma set_fresh k v m : ~ In k (JSMap.keys m) -> JSMap.set k v m = m ++ [(k, v)].
Proof.
  induction m as [|[k' v'] m IH]; cbn [JSMap.set JSMap.keys map fst In app];
    intros Hnotin.
  - reflexivity.
  - destruct (k =? k') eqn:Hk.
    + apply Z.eqb_eq in Hk. exfalso. auto.
    + f_equal. apply IH. unfold JSMap.keys. auto.
Qed.

(** Setting the entries of a list with distinct, new keys appends them. *)
Lemma fold_set_fresh (entries : list (Z * V)) m :
  NoDup (map fst entries) ->
  (forall k, In k (map fst entries) -> ~ In k (JSMap.keys m)) ->
  fold_left (fun b e => JSMap.set (fst e) (snd e) b) entries m = m ++ entries.
Proof.
  revert m. induction entries as [|[k v] entries IH]; intros m Hnd Hnew.
  - cbn. now rewrite app_nil_r.
  - cbn [fold_left fst snd]. cbn [map fst] in Hnd, Hnew.
    inversion Hnd as [|? ? Hnotin Hnd']; subst.
    rewrite set_fresh by (apply Hnew; now left).
    rewrite IH; [now rewrite <- app_assoc| assumption|].
    intros k' Hk'. unfold JSMap.keys. rewrite map_app, in_app_iff.
    cbn [map fst In].
    intros [Hin|[->|[]]]; [|contradiction].
    apply (Hnew k'); [now right | assumption].
Qed.

(** Replacing the value found under a key, where keys are distinct,
    touches that entry only. *)
Lemma get_set_modify (f : V -> V) k m :
  NoDup (JSMap.keys m) ->
  match JSMap.get k m with
  | Some v => JSMap.set k (f v) m
  | None => m
  end
  = map (fun e => if fst e =? k then (fst e, f (snd e)) else e) m.
Proof.
  induction m as [|[k' v'] m IH]; cbn [JSMap.get JSMap.set JSMap.keys map fst snd];
    intros Hnd.
  - reflexivity.
  - inversion Hnd as [|? ? Hnotin Hnd']; subst.
    rewrite (Z.eqb_sym k' k).
    destruct (k =? k') eqn:Hk.
    + apply Z.eqb_eq in Hk. subst k'. f_equal.
      clear IH Hnd Hnd'. induction m as [|[k2 v2] m IHm]; [reflexivity|].
      cbn [map fst snd] in *.
      destruct (k2 =? k) eqn:Hk2.
      * apply Z.eqb_eq in Hk2. exfalso. apply Hnotin. now left.
      * f_equal. apply IHm. intros Hin. apply Hnotin. now right.
    + specialize (IH Hnd').
      destruct (JSMap.get k m); f_equal; exact IH.
Qed.
End MapFacts.

(** ** The buckets of the chart *)

Lemma arithmetic_keys_sorted (a step : Z) (start n : nat) :
  0 < step ->
  StronglySorted Z.lt (map (fun j => a + Z.of_nat j * step) (seq start n)).
Proof.
  intros Hstep. revert start.
  induction n as [|n IH]; intros start; cbn [seq map]; constructor.
  - apply IH.
  - apply Forall_map, Forall_forall. intros j Hj.
    apply in_seq in Hj. nia.
Qed.

Lemma remainingSteps_main timeRange now :
  remainingSteps timeRange now (startTime timeRange now)
  = S (lookbackIntervals timeRange).
Proof.
  unfold remainingSteps, startTime.
  replace (now - (now - lookbackMs timeRange)) with (lookbackMs timeRange) by ring.
  destruct timeRange; reflexivity.
Qed.

Lemma loopInstants_keys timeRange now currentTime :
  map (bucketTimestamp timeRange) (loopInstants timeRange now currentTime)
  = map (fun j => bucketTimestamp timeRange currentTime
                  + Z.of_nat j * intervalMs timeRange)
      (seq 0 (remainingSteps timeRange now currentTime)).
Proof.
  unfold loopInstants. rewrite map_map.
  apply map_ext. intros j. apply bucketTimestamp_shift.
Qed.

Lemma loopInstants_keys_sorted timeRange now currentTime :
  StronglySorted Z.lt
    (map (bucketTimestamp timeRange) (loopInstants timeRange now currentTime)).
Proof.
  rewrite loopInstants_keys.
  apply arithmetic_keys_sorted, intervalMs_pos.
Qed.

Lemma fold_set_map {V T} (g : T -> Z * V) (l : list T) (m : JSMap.t V) :
  fold_left (fun b t => JSMap.set (fst (g t)) (snd (g t)) b) l m
  = fold_left (fun b e => JSMap.set (fst e) (snd e) b) (map g l) m.
Proof.
  revert m. induction l as [|t l IH]; intros m; cbn [fold_left map].
  - reflexivity.
  - apply IH.
Qed.

(** The loop, started on the empty map, leaves one bucket per instant. *)
Lemma initBuckets_entries rt timeRange now currentTime :
  initBuckets rt timeRange now currentTime JSMap.empty
  = map (freshEntry rt timeRange) (loopInstants timeRange now currentTime).
Proof.
  rewrite initBuckets_fold, fold_set_map.
  rewrite fold_set_fresh; [reflexivity| |].
  - rewrite map_map. cbn [freshEntry fst].
    apply StronglySorted_lt_NoDup, loopInstants_keys_sorted.
  - intros k _ [].
Qed.

Lemma hits_cons rt timeRange conv convs k :
  hits rt timeRange (conv :: convs) k
  = ((if keyMatches rt timeRange k conv then 1 else 0) + hits rt timeRange convs k)%nat.
Proof.
  unfold hits. cbn [filter].
  destruct (keyMatches rt timeRange k conv); reflexivity.
Qed.

Lemma countedEntry_nil rt timeRange entry :
  countedEntry rt timeRange [] entry = entry.
Proof.
  destruct entry as [k [l c]]. unfold countedEntry, hits. cbn.
  now rewrite Nat.add_0_r.
Qed.

Lemma countedEntry_cons rt timeRange conv convs entry :
  countedEntry rt timeRange convs (countedEntry rt timeRange [conv] entry)
  = countedEntry rt timeRange (conv :: convs) entry.
Proof.
  unfold countedEntry. cbn [fst snd label count]. f_equal. f_equal.
  rewrite (hits_cons rt timeRange conv convs), (hits_cons rt timeRange conv []).
  unfold hits at 1. cbn [filter length]. lia.
Qed.

Lemma countedEntry_keys rt timeRange convs (m : JSMap.t Bucket) :
  JSMap.keys (map (countedEntry rt timeRange convs) m) = JSMap.keys m.
Proof. unfold JSMap.keys. rewrite map_map. reflexivity. Qed.

(** Counting one conversation touches the bucket of its key only. *)
Lemma countConversation_map rt timeRange (m : JSMap.t Bucket) conv :
  NoDup (JSMap.keys m) ->
  countConversation rt timeRange m conv = map (countedEntry rt timeRange [conv]) m.
Proof.
  intros Hnd. unfold countConversation.
  destruct (dateParse rt (Conversation.created_at conv)) as [convDate|] eqn:Hparse.
  - rewrite (get_set_modify
               (fun b => {| label := label b; count := count b + 1 |})
               (bucketTimestamp timeRange convDate) m Hnd).
    apply map_ext. intros [k [l c]].
    unfold countedEntry. rewrite hits_cons.
    unfold keyMatches, conversationKey. rewrite Hparse.
    cbn [option_map fst snd label count hits filter length].
    rewrite (Z.eqb_sym k).
    destruct (bucketTimestamp timeRange convDate =? k);
      [reflexivity | now rewrite !Nat.add_0_r].
  - symmetry. rewrite <- (map_id m) at 2.
    apply map_ext. intros [k [l c]].
    unfold countedEntry. rewrite hits_cons.
    unfold keyMatches, conversationKey. rewrite Hparse.
    cbn [option_map fst snd label count hits filter length].
    now rewrite !Nat.add_0_r.
Qed.

Lemma fold_countConversation rt timeRange convs (m : JSMap.t Bucket) :
  NoDup (JSMap.keys m) ->
  fold_left (countConversation rt timeRange) convs m
  = map (countedEntry rt timeRange convs) m.
Proof.
  revert m. induction convs as [|conv convs IH]; intros m Hnd; cbn [fold_left].
  - symmetry. rewrite <- (map_id m) at 2.
    apply map_ext. intros e. apply countedEntry_nil.
  - rewrite countConversation_map by assumption.
    rewrite IH by (now rewrite countedEntry_keys).
    rewrite map_map. apply map_ext. intros e. apply countedEntry_cons.
Qed.

Lemma initBuckets_keys rt timeRange now currentTime :
  JSMap.keys (initBuckets rt timeRange now currentTime JSMap.empty)
  = map (bucketTimestamp timeRange) (loopInstants timeRange now currentTime).
Proof.
  rewrite initBuckets_entries. unfold JSMap.keys. rewrite map_map. reflexivity.
Qed.

Lemma countedBuckets_entries rt timeRange now history :
  countedBuckets rt timeRange now history
  = map (fun t => countedEntry rt timeRange
                    (filteredConversations rt timeRange now history)
                    (freshEntry rt timeRange t))
      (loopInstants timeRange now (startTime timeRange now)).
Proof.
  unfold countedBuckets.
  rewrite fold_countConversation.
  - rewrite initBuckets_entries, map_map. reflexivity.
  - rewrite initBuckets_keys.
    apply StronglySorted_lt_NoDup, loopInstants_keys_sorted.
Qed.

Lemma unsortedRows_eq rt timeRange now history :
  map toRow (JSMap.entries (countedBuckets rt timeRange now history))
  = map (rowAt rt timeRange (filteredConversations rt timeRange now history))
      (loopInstants timeRange now (startTime timeRange now)).
Proof.
  unfold JSMap.entries. rewrite countedBuckets_entries, map_map.
  apply map_ext. intros t. reflexivity.
Qed.

Lemma StronglySorted_Sorted_lt_rows (rows : list Row) :
  StronglySorted Z.lt (map timestamp rows) ->
  Sorted (inOrder (fun a b => Some (timestamp a - timestamp b))) rows.
Proof.
  intros Hs. apply StronglySorted_Sorted.
  apply (StronglySorted_map_iff timestamp Z.lt) in Hs.
  induction Hs as [|x l Hs IH Hall]; constructor; [assumption|].
  eapply Forall_impl; [|exact Hall].
  intros y Hy. unfold inOrder, compareResult. cbn beta in Hy. lia.
Qed.

(** The rows of the chart in closed form: one per loop instant, in the
    order of the loop. *)
Lemma sortedRows_eq rt timeRange now history :
  sortedRows rt timeRange now history
  = map (rowAt rt timeRange (filteredConversations rt timeRange now history))
      (loopInstants timeRange now (startTime timeRange now)).
Proof.
  unfold sortedRows. rewrite unsortedRows_eq.
  apply arraySort_sorted_id, StronglySorted_Sorted_lt_rows.
  rewrite map_map. cbn [rowAt timestamp].
  apply loopInstants_keys_sorted.
Qed.

Lemma chartKeys_eq rt timeRange now history :
  chartKeys rt timeRange now history
  = map (fun j => bucketTimestamp timeRange (startTime timeRange now)
                  + Z.of_nat j * intervalMs timeRange)
      (seq 0 (S (lookbackIntervals timeRange))).
Proof.
  unfold chartKeys. rewrite sortedRows_eq, map_map. cbn [rowAt timestamp].
  rewrite loopInstants_keys, remainingSteps_main. reflexivity.
Qed.

Lemma now_from_startTime timeRange now :
  now = startTime timeRange now
        + Z.of_nat (lookbackIntervals timeRange) * intervalMs timeRange.
Proof. unfold startTime. rewrite <- lookbackMs_intervals. ring. Qed.

(** The keys are the multiples of the interval from the one covering
    [startTime] to the one covering [now]. *)
Lemma chartKeys_spec rt timeRange now history k :
  In k (chartKeys rt timeRange now history)
  <-> k mod intervalMs timeRange = 0
      /\ bucketTimestamp timeRange (startTime timeRange now) <= k <= now.
Proof.
  rewrite chartKeys_eq, in_map_iff.
  pose proof (intervalMs_pos timeRange) as Hpos.
  pose proof (bucketTimestamp_bounds timeRange (startTime timeRange now)) as Hs.
  pose proof (now_from_startTime timeRange now) as Hnow.
  set (n := lookbackIntervals timeRange) in *.
  set (s := startTime timeRange now) in *.
  set (i := intervalMs timeRange) in *.
  set (ks := bucketTimestamp timeRange s) in *.
  assert (Hks : ks mod i = 0) by apply bucketTimestamp_aligned.
  split.
  - intros (j & <- & Hj). apply in_seq in Hj. split.
    + rewrite Z.mod_add by lia. exact Hks.
    + nia.
  - intros (Hk & Hlo & Hhi).
    apply Z.mod_divide in Hk; [|lia]. destruct Hk as [q Hq].
    apply Z.mod_divide in Hks; [|lia]. destruct Hks as [q0 Hq0].
    exists (Z.to_nat (q - q0)).
    assert (q0 <= q) by nia.
    assert (q - q0 <= Z.of_nat n) by nia.
    split; [nia|]. apply in_seq. lia.
Qed.

Lemma in_range_key rt timeRange now history t :
  startTime timeRange now <= t <= now ->
  In (bucketTimestamp timeRange t) (chartKeys rt timeRange now history).
Proof.
  intros [Hlo Hhi]. apply chartKeys_spec. split.
  - apply bucketTimestamp_aligned.
  - split.
    + now apply bucketTimestamp_monotone.
    + pose proof (bucketTimestamp_bounds timeRange t). lia.
Qed.

Lemma chartKeys_sorted rt timeRange now history :
  StronglySorted Z.lt (chartKeys rt timeRange now history).
Proof. rewrite chartKeys_eq. apply arithmetic_keys_sorted, intervalMs_pos. Qed.

(** ** Counting *)

Lemma inTimeRange_spec rt timeRange now conv :
  inTimeRange rt timeRange now conv = true
  <-> exists t, dateParse rt (Conversation.created_at conv) = Some t
                /\ startTime timeRange now <= t <= now.
Proof.
  unfold inTimeRange.
  destruct (dateParse rt (Conversation.created_at conv)) as [t|].
  - rewrite andb_true_iff, !Z.leb_le. split.
    + intros H. exists t. split; [reflexivity | exact H].
    + intros (t' & [= <-] & H). exact H.
  - split; [discriminate | intros (t & [=] & _)].
Qed.

Lemma filter_length_le {A} (f : A -> bool) l : (length (filter f l) <= length l)%nat.
Proof.
  induction l as [|x l IH]; cbn [filter length]; [lia|].
  destruct (f x); cbn [length]; lia.
Qed.

Lemma filter_length_eq_iff {A} (f : A -> bool) l :
  length (filter f l) = length l <-> forall x, In x l -> f x = true.
Proof.
  induction l as [|x l IH]; cbn [filter length In].
  - split; [intros _ x [] | reflexivity].
  - pose proof (filter_length_le f l) as Hle.
    destruct (f x) eqn:Hfx; cbn [length].
    + split.
      * intros Hlen y [<-|Hy]; [assumption|]. apply IH; [lia | assumption].
      * intros Hall. f_equal. apply IH. auto.
    + split; [lia|]. intros Hall. specialize (Hall x (or_introl eq_refl)).
      congruence.
Qed.

Lemma hits_pos rt timeRange convs conv k :
  In conv convs -> keyMatches rt timeRange k conv = true ->
  (1 <= hits rt timeRange convs k)%nat.
Proof.
  intros Hin Hmatch. unfold hits.
  assert (Hf : In conv (filter (keyMatches rt timeRange k) convs))
    by (apply filter_In; split; assumption).
  destruct (filter (keyMatches rt timeRange k) convs); [destruct Hf|cbn; lia].
Qed.

Lemma list_sum_cons (x : nat) l : list_sum (x :: l) = (x + list_sum l)%nat.
Proof. reflexivity. Qed.

Lemma list_sum_add {A} (f g : A -> nat) l :
  list_sum (map (fun x => (f x + g x)%nat) l)
  = (list_sum (map f l) + list_sum (map g l))%nat.
Proof.
  induction l as [|x l IH]; [reflexivity|].
  cbn [map]. rewrite !list_sum_cons. lia.
Qed.

(** Among distinct keys a conversation matches at most one, and exactly one
    when its key is among them. *)
Lemma matches_at_most_one rt timeRange conv ks :
  NoDup ks ->
  (list_sum (map (fun k => if keyMatches rt timeRange k conv then 1 else 0)%nat ks)
   <= 1)%nat.
Proof.
  unfold keyMatches.
  destruct (conversationKey rt timeRange conv) as [k0|].
  - induction 1 as [|k ks Hnotin Hnd IH]; [cbn; lia|].
    cbn [map]. rewrite list_sum_cons.
    destruct (k0 =? k) eqn:Hk; [|lia].
    apply Z.eqb_eq in Hk. subst k0.
    assert (Hzero : list_sum (map (fun k' => if k =? k' then 1%nat else 0%nat) ks) = 0%nat).
    { clear IH Hnd. induction ks as [|k' ks IHks]; [reflexivity|].
      cbn [map]; rewrite ?list_sum_cons. destruct (k =? k') eqn:Hk'.
      - apply Z.eqb_eq in Hk'. exfalso. apply Hnotin. now left.
      - apply IHks. intros Hin. apply Hnotin. now right. }
    lia.
  - intros _. induction ks as [|k ks IH]; [cbn; lia|].
    cbn [map]. rewrite list_sum_cons. lia.
Qed.

Lemma matches_exactly_one rt timeRange conv ks k0 :
  NoDup ks -> conversationKey rt timeRange conv = Some k0 -> In k0 ks ->
  list_sum (map (fun k => if keyMatches rt timeRange k conv then 1 else 0)%nat ks)
  = 1%nat.
Proof.
  intros Hnd Hkey Hin.
  pose proof (matches_at_most_one rt timeRange conv ks Hnd) as Hle.
  enough (1 <= list_sum
                 (map (fun k => if keyMatches rt timeRange k conv then 1 else 0)%nat ks))%nat
    by lia.
  clear Hle Hnd. induction ks as [|k ks IH]; [destruct Hin|].
  cbn [map]; rewrite ?list_sum_cons. destruct Hin as [->|Hin].
  - unfold keyMatches at 1. rewrite Hkey, Z.eqb_refl. lia.
  - specialize (IH Hin). lia.
Qed.

Lemma hits_sum_le rt timeRange convs ks :
  NoDup ks ->
  (list_sum (map (hits rt timeRange convs) ks) <= length convs)%nat.
Proof.
  intros Hnd. induction convs as [|conv convs IH].
  - induction ks as [|k ks IHks]; [cbn; lia|].
    cbn [map]; rewrite ?list_sum_cons. inversion Hnd; subst. unfold hits at 1. cbn. auto.
  - rewrite (map_ext _ _ (hits_cons rt timeRange conv convs)), list_sum_add.
    pose proof (matches_at_most_one rt timeRange conv ks Hnd).
    cbn [length]. lia.
Qed.

(** Every conversation whose key is among the distinct keys is counted
    exactly once. *)
Lemma hits_sum_eq rt timeRange convs ks :
  NoDup ks ->
  (forall conv, In conv convs ->
     exists k, conversationKey rt timeRange conv = Some k /\ In k ks) ->
  list_sum (map (hits rt timeRange convs) ks) = length convs.
Proof.
  intros Hnd. induction convs as [|conv convs IH]; intros Hkeys.
  - clear Hkeys Hnd. induction ks as [|k ks IHks]; [reflexivity|].
    cbn [map]; rewrite ?list_sum_cons. rewrite IHks. reflexivity.
  - rewrite (map_ext _ _ (hits_cons rt timeRange conv convs)), list_sum_add.
    destruct (Hkeys conv (or_introl eq_refl)) as (k0 & Hk0 & Hin).
    rewrite (matches_exactly_one rt timeRange conv ks k0 Hnd Hk0 Hin).
    rewrite IH by (intros c Hc; apply Hkeys; now right).
    reflexivity.
Qed.

Lemma filtered_in_range rt timeRange now history conv :
  In conv (filteredConversations rt timeRange now history) ->
  exists t, dateParse rt (Conversation.created_at conv) = Some t
            /\ startTime timeRange now <= t <= now.
Proof.
  intros Hin. apply filter_In in Hin. now apply inTimeRange_spec.
Qed.

Lemma sumConversations_rows rt stats timeRange now :
  sumConversations (chartData rt (Some stats) timeRange now)
  = list_sum
      (map (hits rt timeRange
              (filteredConversations rt timeRange now (conversation_history stats)))
         (chartKeys rt timeRange now (conversation_history stats))).
Proof.
  unfold sumConversations, chartData, chartKeys.
  rewrite sortedRows_eq, !map_map. reflexivity.
Qed.

Lemma filtered_keys rt timeRange now history conv :
  In conv (filteredConversations rt timeRange now history) ->
  exists k, conversationKey rt timeRange conv = Some k
            /\ In k (chartKeys rt timeRange now history).
Proof.
  intros Hin. apply filtered_in_range in Hin. destruct Hin as (t & Hparse & Hrange).
  exists (bucketTimestamp timeRange t). split.
  - unfold conversationKey. now rewrite Hparse.
  - now apply in_range_key.
Qed.

(** The sum of the counts is the number of conversations in range. *)
Lemma sumConversations_filtered rt stats timeRange now :
  sumConversations (chartData rt (Some stats) timeRange now)
  = length (filteredConversations rt timeRange now (conversation_history stats)).
Proof.
  rewrite sumConversations_rows. apply hits_sum_eq.
  - apply StronglySorted_lt_NoDup, chartKeys_sorted.
  - intros conv. apply filtered_keys.
Qed.

(** Counting never adds or removes a key. *)
Lemma fold_countConversation_keys rt timeRange convs (m : JSMap.t Bucket) :
  NoDup (JSMap.keys m) ->
  JSMap.keys (fold_left (countConversation rt timeRange) convs m) = JSMap.keys m.
Proof.
  intros Hnd. rewrite fold_countConversation by assumption.
  apply countedEntry_keys.
Qed.

Lemma initBuckets_chartKeys rt timeRange now history :
  JSMap.keys (initBuckets rt timeRange now (startTime timeRange now) JSMap.empty)
  = chartKeys rt timeRange now history.
Proof.
  rewrite initBuckets_keys. unfold chartKeys.
  rewrite sortedRows_eq, map_map. reflexivity.
Qed.

(** ** The claims about the chart series *)

(** C1: for every conversation history and each of the four time ranges the
    series has [ceil((now - startTime) / intervalMs) + 1] points, that is
    13, 13, 8 and 31 points for 12h, 1d, 7d and 30d; the length is the same
    for any other history. *)
Theorem chartData_length rt (stats stats' : StatsResponse) timeRange now :
  length (chartData rt (Some stats) timeRange now)
  = (Z.to_nat (mathCeilDiv (now - startTime timeRange now) (intervalMs timeRange)) + 1)%nat
  /\ length (chartData rt (Some stats) timeRange now)
     = match timeRange with
       | Range12h => 13 | Range1d => 13 | Range7d => 8 | Range30d => 31
       end%nat
  /\ length (chartData rt (Some stats) timeRange now)
     = length (chartData rt (Some stats') timeRange now).
Proof.
  assert (Hlen : forall s, length (chartData rt (Some s) timeRange now)
                           = S (lookbackIntervals timeRange)).
  { intros s. unfold chartData.
    rewrite sortedRows_eq, !length_map. unfold loopInstants.
    rewrite length_map, length_seq. apply remainingSteps_main. }
  rewrite !Hlen. unfold startTime.
  replace (now - (now - lookbackMs timeRange)) with (lookbackMs timeRange) by ring.
  destruct timeRange; repeat split; reflexivity.
Qed.

(** C2: the counts of the series add up to the number of conversations in
    [startTime, now], each of which is counted in the one bucket of its own
    key; the sum is at most the number of conversations, and equal to it
    exactly when every conversation has a timestamp in [now - lookback, now];
    whenever the loop reaches a conversation in range, a bucket is found
    under its key. *)
Theorem chartData_counts rt stats timeRange now :
  let history := conversation_history stats in
  let inRange := filteredConversations rt timeRange now history in
  let data := chartData rt (Some stats) timeRange now in
  sumConversations data = length inRange
  /\ (forall row, In row (sortedRows rt timeRange now history) ->
       row_conversations row = hits rt timeRange inRange (timestamp row))
  /\ (sumConversations data <= length history)%nat
  /\ (sumConversations data = length history <->
      forall conv, In conv history ->
        exists t, dateParse rt (Conversation.created_at conv) = Some t
                  /\ now - lookbackMs timeRange <= t <= now)
  /\ (forall counted conv rest, inRange = counted ++ conv :: rest ->
       exists t bucket,
         dateParse rt (Conversation.created_at conv) = Some t
         /\ JSMap.get (bucketTimestamp timeRange t)
              (fold_left (countConversation rt timeRange) counted
                 (initBuckets rt timeRange now (startTime timeRange now) JSMap.empty))
            = Some bucket).
Proof.
  intros history inRange data. subst data inRange history.
  pose proof (sumConversations_filtered rt stats timeRange now) as Hsum.
  split; [exact Hsum|]. split; [|split; [|split]].
  - intros row Hrow. rewrite sortedRows_eq in Hrow.
    apply in_map_iff in Hrow. destruct Hrow as (t & <- & _). reflexivity.
  - rewrite Hsum. apply filter_length_le.
  - rewrite Hsum. unfold filteredConversations. rewrite filter_length_eq_iff.
    split; intros H conv Hin; apply (inTimeRange_spec rt timeRange now conv), H, Hin.
  - intros counted conv rest Hsplit.
    assert (Hin : In conv (filteredConversations rt timeRange now
                             (conversation_history stats)))
      by (rewrite Hsplit; apply in_elt).
    destruct (filtered_in_range _ _ _ _ _ Hin) as (t & Hparse & Hrange).
    exists t.
    assert (Hnd : NoDup (JSMap.keys
                           (initBuckets rt timeRange now (startTime timeRange now)
                              JSMap.empty))).
    { rewrite (initBuckets_chartKeys rt timeRange now (conversation_history stats)).
      apply StronglySorted_lt_NoDup, chartKeys_sorted. }
    destruct (get_In (bucketTimestamp timeRange t)
                (fold_left (countConversation rt timeRange) counted
                   (initBuckets rt timeRange now (startTime timeRange now)
                      JSMap.empty))) as [bucket Hget].
    { rewrite fold_countConversation_keys by assumption.
      rewrite (initBuckets_chartKeys rt timeRange now (conversation_history stats)).
      now apply in_range_key. }
    exists bucket. split; assumption.
Qed.

Lemma StronglySorted_impl {A} (R S : A -> A -> Prop) l :
  (forall a b, R a b -> S a b) -> StronglySorted R l -> StronglySorted S l.
Proof.
  intros Himpl. induction 1 as [|x l Hs IH Hall]; constructor; [assumption|].
  eapply Forall_impl; [|exact Hall]. intros y. apply Himpl.
Qed.

Lemma countedBuckets_keys rt timeRange now history :
  JSMap.keys (countedBuckets rt timeRange now history)
  = JSMap.keys (initBuckets rt timeRange now (startTime timeRange now) JSMap.empty).
Proof.
  unfold countedBuckets. apply fold_countConversation_keys.
  rewrite initBuckets_keys.
  apply StronglySorted_lt_NoDup, loopInstants_keys_sorted.
Qed.

(** C3, as the code has it: the label of every bucket the loop creates is
    the formatter applied to the loop instant
    [currentTime = startTime + j * intervalMs] (j = 0 .. lookback/interval),
    while the key is that instant floored to the interval; the instant lies
    in the bucket's interval at the offset [now mod intervalMs] from the key,
    so the two coincide exactly when [now] is a multiple of the interval. *)
Theorem bucket_label_instant rt timeRange now entry :
  In entry (initBuckets rt timeRange now (startTime timeRange now) JSMap.empty) ->
  exists j currentTime,
    (j <= lookbackIntervals timeRange)%nat
    /\ currentTime = startTime timeRange now + Z.of_nat j * intervalMs timeRange
    /\ label (snd entry) = formatLabel rt timeRange currentTime
    /\ fst entry = bucketTimestamp timeRange currentTime
    /\ fst entry <= currentTime < fst entry + intervalMs timeRange
    /\ currentTime - fst entry = now mod intervalMs timeRange
    /\ (currentTime = fst entry <-> now mod intervalMs timeRange = 0).
Proof.
  rewrite initBuckets_entries. unfold loopInstants.
  rewrite remainingSteps_main, map_map, in_map_iff.
  intros (j & <- & Hj). apply in_seq in Hj.
  exists j, (startTime timeRange now + Z.of_nat j * intervalMs timeRange).
  cbn [freshEntry fst snd label].
  pose proof (intervalMs_pos timeRange) as Hpos.
  assert (Hoff : startTime timeRange now + Z.of_nat j * intervalMs timeRange
                 - bucketTimestamp timeRange
                     (startTime timeRange now + Z.of_nat j * intervalMs timeRange)
                 = now mod intervalMs timeRange).
  { rewrite bucketTimestamp_offset.
    rewrite (now_from_startTime timeRange now) at 2.
    rewrite !Z.mod_add by lia. reflexivity. }
  repeat split; try reflexivity; try lia;
    try apply bucketTimestamp_bounds; try exact Hoff.
Qed.

(** C3 as stated fails at 12:34:56: the first bucket of the 12h chart has
    the key of midnight and the label of 00:34, the first loop instant, which
    is not its own key. *)
Lemma label_formats_loop_instant :
  ~ (forall entry,
       In entry (initBuckets Utc.runtime Range12h Sample.afterNoon
                   (startTime Range12h Sample.afterNoon) JSMap.empty) ->
       label (snd entry) = formatLabel Utc.runtime Range12h (fst entry))
  /\ ~ (forall t,
         In t (loopInstants Range12h Sample.afterNoon
                 (startTime Range12h Sample.afterNoon)) ->
         t = bucketTimestamp Range12h t).
Proof.
  split.
  - intros Hall.
    specialize (Hall (1704153600000, {| label := "12:34 AM"; count := 0 |})).
    assert (Hlabel : "12:34 AM"%string = "12:00 AM"%string)
      by (apply Hall; vm_compute; left; reflexivity).
    discriminate Hlabel.
  - intros Hall. specialize (Hall 1704155696000).
    assert (Hkey : 1704155696000 = 1704153600000)
      by (apply Hall; vm_compute; left; reflexivity).
    discriminate Hkey.
Qed.

(** C4: the range filter is closed at both ends.  A conversation dated
    exactly [startTime] passes it and is counted in the first bucket of the
    series; one dated exactly [now] passes it and is counted in the last. *)
Theorem range_filter_closed rt stats timeRange now conv t :
  In conv (conversation_history stats) ->
  dateParse rt (Conversation.created_at conv) = Some t ->
  (t = startTime timeRange now ->
     inTimeRange rt timeRange now conv = true
     /\ exists first rest,
          chartData rt (Some stats) timeRange now = first :: rest
          /\ (1 <= conversations first)%nat)
  /\ (t = now ->
        inTimeRange rt timeRange now conv = true
        /\ exists front last,
             chartData rt (Some stats) timeRange now = front ++ [last]
             /\ (1 <= conversations last)%nat).
Proof.
  intros Hin Hparse.
  pose proof (intervalMs_pos timeRange) as Hpos.
  pose proof (now_from_startTime timeRange now) as Hnow.
  assert (Hrows : chartData rt (Some stats) timeRange now
                  = map (fun j => toPoint
                           (rowAt rt timeRange
                              (filteredConversations rt timeRange now
                                 (conversation_history stats))
                              (startTime timeRange now
                               + Z.of_nat j * intervalMs timeRange)))
                      (seq 0 (S (lookbackIntervals timeRange)))).
  { unfold chartData. rewrite sortedRows_eq. unfold loopInstants.
    rewrite remainingSteps_main, !map_map. reflexivity. }
  assert (Hcounted : forall u, t = u -> startTime timeRange now <= u <= now ->
            inTimeRange rt timeRange now conv = true
            /\ (1 <= hits rt timeRange
                       (filteredConversations rt timeRange now
                          (conversation_history stats))
                       (bucketTimestamp timeRange u))%nat).
  { intros u -> Hrange.
    assert (Hpass : inTimeRange rt timeRange now conv = true)
      by (apply inTimeRange_spec; eauto).
    split; [exact Hpass|].
    apply hits_pos with (conv := conv).
    - apply filter_In. split; assumption.
    - unfold keyMatches, conversationKey. rewrite Hparse. cbn. apply Z.eqb_refl. }
  split; intros Ht.
  - destruct (Hcounted (startTime timeRange now) Ht) as [Hpass Hhits]; [lia|].
    split; [exact Hpass|].
    rewrite Hrows. cbn [seq map]. eexists. eexists. split; [reflexivity|].
    cbn [toPoint rowAt conversations row_conversations].
    replace (startTime timeRange now + Z.of_nat 0 * intervalMs timeRange)
      with (startTime timeRange now) by lia.
    exact Hhits.
  - destruct (Hcounted now Ht) as [Hpass Hhits]; [lia|].
    split; [exact Hpass|].
    rewrite Hrows, seq_S, map_app. cbn [map Nat.add].
    eexists. eexists. split; [reflexivity|].
    cbn [toPoint rowAt conversations row_conversations].
    rewrite <- Hnow. exact Hhits.
Qed.

(** C5: the keys under the series are aligned to the epoch, not to
    [startTime]: each is a multiple of the interval, fixed by flooring.  For
    two computations with the same range and any two values of [now] (and any
    histories), a bucket of the first whose key lies in the second lookback
    window, all the more one whose whole interval does, has the same key in
    the second. *)
Theorem chartKeys_epoch_aligned rt rt' timeRange now now' history history' k :
  In k (chartKeys rt timeRange now history) ->
  k mod intervalMs timeRange = 0
  /\ bucketTimestamp timeRange k = k
  /\ (startTime timeRange now' <= k -> k <= now' ->
      In k (chartKeys rt' timeRange now' history')).
Proof.
  intros Hin. apply chartKeys_spec in Hin. destruct Hin as (Haligned & Hlo & Hhi).
  split; [exact Haligned|]. split; [now apply bucketTimestamp_of_aligned|].
  intros Hlo' Hhi'. apply chartKeys_spec. split; [exact Haligned|].
  split; [|exact Hhi'].
  pose proof (bucketTimestamp_bounds timeRange (startTime timeRange now')). lia.
Qed.

(** C6: the rows the series is projected from are strictly ascending by
    key: the sort puts the keys in ascending order and the keys of a map are
    distinct, so no key occurs twice and every row's key is below the key of
    every later row, its neighbour included. *)
Theorem sortedRows_strictly_ascending rt stats timeRange now :
  let rows := sortedRows rt timeRange now (conversation_history stats) in
  chartData rt (Some stats) timeRange now = map toPoint rows
  /\ NoDup (map timestamp rows)
  /\ StronglySorted Z.lt (map timestamp rows)
  /\ Sorted Z.lt (map timestamp rows).
Proof.
  intros rows. split; [reflexivity|].
  set (compareFn := fun a b : Row => Some (timestamp a - timestamp b)).
  assert (Hnd : NoDup (map timestamp rows)).
  { subst rows. unfold sortedRows.
    eapply Permutation_NoDup.
    - apply Permutation_map. symmetry. apply arraySort_perm.
    - rewrite map_map. cbn [toRow timestamp].
      change (NoDup (JSMap.keys
                       (countedBuckets rt timeRange now (conversation_history stats)))).
      rewrite countedBuckets_keys, initBuckets_keys.
      apply StronglySorted_lt_NoDup, loopInstants_keys_sorted. }
  assert (Hle : StronglySorted Z.le (map timestamp rows)).
  { apply (StronglySorted_map_iff timestamp Z.le).
    apply StronglySorted_impl with (R := inOrder compareFn).
    - intros a b. unfold inOrder, compareFn, compareResult. lia.
    - apply Sorted_StronglySorted.
      + intros a b c. unfold inOrder, compareFn, compareResult. lia.
      + subst rows. unfold sortedRows. apply arraySort_sorted.
        intros a b. unfold compareResult. lia. }
  assert (Hlt : StronglySorted Z.lt (map timestamp rows))
    by (apply StronglySorted_le_NoDup_lt; assumption).
  repeat split; try assumption.
  now apply StronglySorted_Sorted.
Qed.

(** C7: a conversation whose [created_at] does not parse fails the range
    filter, is counted in no bucket, and the series is the one computed
    without it: the computation goes through as for any other input. *)
Theorem unparseable_dropped rt stats timeRange now before conv after :
  dateParse rt (Conversation.created_at conv) = None ->
  inTimeRange rt timeRange now conv = false
  /\ (forall buckets, countConversation rt timeRange buckets conv = buckets)
  /\ chartData rt (Some (withHistory stats (before ++ conv :: after))) timeRange now
     = chartData rt (Some (withHistory stats (before ++ after))) timeRange now.
Proof.
  intros Hparse.
  assert (Hfilter : inTimeRange rt timeRange now conv = false)
    by (unfold inTimeRange; now rewrite Hparse).
  split; [exact Hfilter|]. split.
  - intros buckets. unfold countConversation. now rewrite Hparse.
  - unfold chartData, withHistory. cbn [conversation_history].
    unfold sortedRows, countedBuckets, filteredConversations.
    rewrite !filter_app. cbn [filter]. rewrite Hfilter. reflexivity.
Qed.




(** ** The average rating *)

Lemma truthy_spec (n : option float) :
  truthy n = true
  <-> exists q, n = Some q /\ PrimFloat.eqb q 0 = false /\ isNaN q = false.
Proof.
  unfold truthy. destruct n as [q|].
  - rewrite andb_true_iff, !negb_true_iff. split.
    + intros [Hzero Hnan]. exists q. auto.
    + intros (q' & [= <-] & Hzero & Hnan). auto.
  - split; [discriminate | intros (q & [=] & _)].
Qed.

Lemma orZero_spec (n : option float) :
  (forall q, n = Some q -> truthy n = true -> orZero n = q)
  /\ (truthy n = false -> orZero n = 0%float).
Proof.
  unfold orZero. destruct n as [q|].
  - split.
    + intros q' [= <-] ->. reflexivity.
    + intros ->. reflexivity.
  - split; [discriminate | reflexivity].
Qed.

Lemma fold_left_ext_in {A B} (f g : A -> B -> A) (l : list B) (a : A) :
  (forall x, In x l -> forall acc, f acc x = g acc x) ->
  fold_left f l a = fold_left g l a.
Proof.
  revert a. induction l as [|x l IH]; intros a Hext; [reflexivity|].
  cbn [fold_left]. rewrite (Hext x (or_introl eq_refl)).
  apply IH. intros y Hy. apply Hext. now right.
Qed.

(** C9: with no truthy rating the average is 0; otherwise it is the sum of
    the contributions of all conversations, added up as the code does,
    divided by the number of conversations with a truthy rating.  A
    conversation contributes its rating when that is truthy and 0 when it is
    missing (or falsy); it is counted in the divisor exactly when it has a
    rating that is neither a zero nor NaN, so one rated 0 is left out; the
    sum is the plain sum of the ratings, missing ones counting 0, when no
    rating is NaN or a negative zero; and a number is returned in every case:
    the division never has a zero divisor. *)
Theorem calculateAverageRating_spec conversations :
  let rated := ratedConversations conversations in
  (rated = [] -> calculateAverageRating conversations = Some 0%float)
  /\ (rated <> [] ->
      (1 <= length rated)%nat
      /\ calculateAverageRating conversations
         = Some (ratingSum conversations / lengthNumber (length rated))%float)
  /\ (forall c q, ConversationInfo.quality_rating c = Some q ->
        truthy (Some q) = true ->
        orZero (ConversationInfo.quality_rating c) = q)
  /\ (forall c, truthy (ConversationInfo.quality_rating c) = false ->
        orZero (ConversationInfo.quality_rating c) = 0%float)
  /\ (forall c, In c rated <->
        In c conversations
        /\ exists q, ConversationInfo.quality_rating c = Some q
                     /\ PrimFloat.eqb q 0 = false /\ isNaN q = false)
  /\ (forall c q, In c conversations ->
        ConversationInfo.quality_rating c = Some q ->
        PrimFloat.eqb q 0 = true -> ~ In c rated)
  /\ ((forall c q, In c conversations ->
         ConversationInfo.quality_rating c = Some q ->
         truthy (Some q) = true \/ q = 0%float) ->
      ratingSum conversations = plainRatingSum conversations)
  /\ calculateAverageRating conversations <> None.
Proof.
  intros rated.
  assert (Hrated : forall c, In c rated <->
            In c conversations
            /\ exists q, ConversationInfo.quality_rating c = Some q
                         /\ PrimFloat.eqb q 0 = false /\ isNaN q = false).
  { intros c. subst rated. unfold ratedConversations.
    rewrite filter_In, truthy_spec. reflexivity. }
  assert (Hempty : rated = [] -> calculateAverageRating conversations = Some 0%float).
  { intros Hnil. unfold calculateAverageRating.
    fold (ratedConversations conversations). fold rated. now rewrite Hnil. }
  assert (Hsome : rated <> [] ->
            (1 <= length rated)%nat
            /\ calculateAverageRating conversations
               = Some (ratingSum conversations / lengthNumber (length rated))%float).
  { intros Hne. unfold calculateAverageRating.
    fold (ratedConversations conversations). fold rated.
    assert (Hlen : length rated <> 0%nat) by (destruct rated; [congruence | discriminate]).
    split; [lia|].
    unfold numberDiv.
    destruct (Nat.eqb_spec (length rated) 0) as [Hz|_]; [contradiction|].
    reflexivity. }
  split; [exact Hempty|]. split; [exact Hsome|]. split.
  - intros c q Hq Htruthy. rewrite Hq in *. now apply (orZero_spec (Some q)).
  - split; [intros c; apply orZero_spec|].
    split; [exact Hrated|]. split.
    + intros c q _ Hq Hzero Hin. apply Hrated in Hin.
      destruct Hin as (_ & q' & Hq' & Hnz & _). congruence.
    + split.
      * intros Hplain. unfold ratingSum, plainRatingSum.
        apply fold_left_ext_in. intros c Hin sum. f_equal.
        unfold ratingOrZero.
        destruct (ConversationInfo.quality_rating c) as [q|] eqn:Hq;
          [|reflexivity].
        destruct (Hplain c q Hin Hq) as [Htruthy| ->]; [|reflexivity].
        now apply (orZero_spec (Some q)).
      * destruct rated as [|c rated'] eqn:Hr.
        -- rewrite Hempty by reflexivity. discriminate.
        -- destruct Hsome as [_ ->]; discriminate.
Qed.

(** ** Pagination *)

Lemma firstn_plus {A} (a b : nat) (l : list A) :
  firstn (a + b) l = firstn a l ++ firstn b (skipn a l).
Proof.
  revert l. induction a as [|a IH]; intros l; [reflexivity|].
  destruct l as [|x l]; cbn [Nat.add firstn skipn app].
  - now rewrite firstn_nil.
  - f_equal. apply IH.
Qed.

(** For a start not after the end, both non-negative, [slice] is "skip
    [start], then take [end - start]". *)
Lemma arraySlice_firstn_skipn {A} (l : list A) (start end_ : Z) :
  0 <= start <= end_ ->
  arraySlice l start end_
  = firstn (Z.to_nat (end_ - start)) (skipn (Z.to_nat start) l).
Proof.
  intros [Hstart Hend]. unfold arraySlice, relativeIndex.
  destruct (Z.ltb_spec start 0) as [?|_]; [lia|].
  destruct (Z.ltb_spec end_ 0) as [?|_]; [lia|].
  destruct (Z.le_gt_cases start (Z.of_nat (length l))) as [Hin|Hout].
  - rewrite (Z.min_l start) by lia.
    destruct (Z.le_gt_cases end_ (Z.of_nat (length l))) as [Hin'|Hout'].
    + rewrite (Z.min_l end_) by lia. f_equal. lia.
    + rewrite (Z.min_r end_) by lia.
      rewrite !firstn_all2; [reflexivity| |]; rewrite length_skipn; lia.
  - rewrite (Z.min_r start) by lia.
    rewrite !skipn_all2 by lia. now rewrite !firstn_nil.
Qed.

(** Consecutive chunks of [n] items put together are a prefix. *)
Lemma chunks_concat {A} (n k : nat) (l : list A) :
  concat (map (fun j => firstn n (skipn (j * n) l)) (seq 0 k)) = firstn (k * n) l.
Proof.
  induction k as [|k IH]; [reflexivity|].
  rewrite seq_S, map_app, concat_app, IH. cbn [Nat.add map concat].
  rewrite app_nil_r.
  replace (S k * n)%nat with (k * n + n)%nat by lia.
  now rewrite firstn_plus.
Qed.

Lemma mathCeilDiv_bounds (len perPage : Z) :
  0 < perPage ->
  (mathCeilDiv len perPage - 1) * perPage < len <= mathCeilDiv len perPage * perPage.
Proof.
  intros Hpos. unfold mathCeilDiv.
  pose proof (Z.div_mod (- len) perPage) as Hdm.
  pose proof (Z.mod_pos_bound (- len) perPage Hpos).
  nia.
Qed.

Lemma Sorted_impl_Forall {A} (P : A -> Prop) (R S : A -> A -> Prop) l :
  (forall a b, P a -> P b -> R a b -> S a b) ->
  Forall P l -> Sorted R l -> Sorted S l.
Proof.
  intros Himpl Hall Hs. induction Hs as [|x l Hs IH Hhd]; constructor.
  - apply IH. now inversion Hall.
  - inversion Hall as [|? ? Hx Hl]; subst.
    destruct Hhd as [|y l Hxy]; constructor.
    inversion Hl; subst. now apply Himpl.
Qed.

Lemma StronglySorted_impl_Forall {A} (P : A -> Prop) (R S : A -> A -> Prop) l :
  (forall a b, P a -> P b -> R a b -> S a b) ->
  Forall P l -> StronglySorted R l -> StronglySorted S l.
Proof.
  intros Himpl Hall Hs. induction Hs as [|x l Hs IH Hrel]; constructor.
  - apply IH. now inversion Hall.
  - inversion Hall as [|? ? Hx Hl]; subst.
    rewrite Forall_forall in *. intros y Hy. apply Himpl; auto.
Qed.

Lemma dateDifference_antisym rt (a b : string) :
  0 < compareResult (dateDifference rt b a) ->
  compareResult (dateDifference rt a b) <= 0.
Proof.
  unfold dateDifference, compareResult.
  destruct (dateParse rt a), (dateParse rt b); lia.
Qed.

Section Pagination.
Context {A : Type} (engine : SortEngine) (rt : Runtime) (dateOf : A -> string)
  (perPage : Z).
Hypothesis perPage_pos : 0 < perPage.

(** The code shared by the two components. *)
Let compareFn := fun a b : A => dateDifference rt (dateOf b) (dateOf a).
Let sorted := engineSort engine A compareFn.
Let page := fun (l : list A) (currentPage : Z) =>
  arraySlice (sorted l) (currentPage * perPage - perPage) (currentPage * perPage).
Let pages := fun l : list A => mathCeilDiv (Z.of_nat (length l)) perPage.

Lemma sorted_permutation l : Permutation (sorted l) l.
Proof. apply engineSort_permutation. Qed.

Lemma sorted_length l : length (sorted l) = length l.
Proof. apply Permutation_length, sorted_permutation. Qed.

(** When every date parses the comparator is consistent, and the engine
    returns the stable sort. *)
Lemma dates_consistent l :
  (forall x, In x l -> dateParse rt (dateOf x) <> None) ->
  ConsistentComparator compareFn l.
Proof.
  intros Hvalid. unfold ConsistentComparator, compareFn, dateDifference, compareResult.
  repeat split; intros;
    repeat match goal with
           | Hin : In ?x l |- _ =>
               let t := fresh "t" in
               let Hx := fresh "Hx" in
               pose proof (Hvalid x Hin) as Hx;
               destruct (dateParse rt (dateOf x)) as [t|]; [|congruence];
               clear Hin Hx
           end;
    try discriminate; lia.
Qed.

Lemma sorted_stable_sort l :
  (forall x, In x l -> dateParse rt (dateOf x) <> None) ->
  sorted l = arraySort compareFn l.
Proof. intros Hvalid. apply engineSort_consistent, dates_consistent, Hvalid. Qed.

Lemma sorted_descending l :
  (forall x, In x l -> dateParse rt (dateOf x) <> None) ->
  StronglySorted (fun a b => notEarlier rt (dateOf a) (dateOf b)) (sorted l).
Proof.
  intros Hvalid.
  assert (Hall : Forall (fun x => dateParse rt (dateOf x) <> None) (sorted l)).
  { apply Forall_forall. intros x Hx. apply Hvalid.
    eapply Permutation_in; [apply sorted_permutation|exact Hx]. }
  apply StronglySorted_impl_Forall
    with (P := fun x => dateParse rt (dateOf x) <> None)
         (R := fun a b => timeOf rt (dateOf b) <= timeOf rt (dateOf a));
    [|exact Hall|].
  - intros a b Ha Hb Hle. unfold notEarlier, timeOf in *.
    destruct (dateParse rt (dateOf a)) as [ta|]; [|congruence].
    destruct (dateParse rt (dateOf b)) as [tb|]; [|congruence].
    exists ta, tb. auto.
  - apply Sorted_StronglySorted.
    + intros a b c. lia.
    + apply Sorted_impl_Forall
        with (P := fun x => dateParse rt (dateOf x) <> None)
             (R := inOrder compareFn);
        [|exact Hall|].
      * intros a b Ha Hb.
        unfold inOrder, compareFn, dateDifference, compareResult, timeOf.
        destruct (dateParse rt (dateOf a)); [|congruence].
        destruct (dateParse rt (dateOf b)); [|congruence].
        lia.
      * rewrite sorted_stable_sort by assumption.
        apply arraySort_sorted.
        intros a b. apply dateDifference_antisym.
Qed.

Lemma page_chunk l p :
  1 <= p ->
  page l p
  = firstn (Z.to_nat perPage) (skipn (Z.to_nat ((p - 1) * perPage)) (sorted l)).
Proof.
  intros Hp. unfold page.
  rewrite arraySlice_firstn_skipn by nia.
  f_equal; [f_equal; lia | f_equal; f_equal; lia].
Qed.

Lemma page_segment l p :
  1 <= p <= pages l ->
  page l p
  = segment (sorted l) (Z.to_nat ((p - 1) * perPage))
      (Z.to_nat (Z.min (p * perPage) (Z.of_nat (length l))))
  /\ (1 <= length (page l p))%nat
  /\ Z.of_nat (length (page l p)) <= perPage.
Proof.
  intros [Hlo Hhi].
  pose proof (mathCeilDiv_bounds (Z.of_nat (length l)) perPage perPage_pos)
    as [Hlast _].
  fold (pages l) in Hlast.
  assert (Hstart : (p - 1) * perPage < Z.of_nat (length l)) by nia.
  pose proof (sorted_length l) as Hlen.
  rewrite page_chunk by assumption. unfold segment.
  assert (Hchunk :
    firstn (Z.to_nat perPage) (skipn (Z.to_nat ((p - 1) * perPage)) (sorted l))
    = firstn (Z.to_nat (Z.min (p * perPage) (Z.of_nat (length l)))
              - Z.to_nat ((p - 1) * perPage))
        (skipn (Z.to_nat ((p - 1) * perPage)) (sorted l))).
  { destruct (Z.le_gt_cases (p * perPage) (Z.of_nat (length l))) as [Hfull|Hpart].
    - rewrite Z.min_l by lia. f_equal. nia.
    - rewrite Z.min_r by lia.
      rewrite !firstn_all2; [reflexivity| |]; rewrite length_skipn, Hlen; nia. }
  split; [exact Hchunk|].
  rewrite Hchunk, length_firstn, length_skipn, Hlen. split; nia.
Qed.

Lemma pages_concat l :
  concat (map (page l) (pageNumbers (pages l))) = sorted l.
Proof.
  unfold pageNumbers. rewrite map_map.
  rewrite (map_ext_in _
             (fun j => firstn (Z.to_nat perPage)
                         (skipn (j * Z.to_nat perPage) (sorted l)))).
  - rewrite chunks_concat. apply firstn_all2.
    rewrite sorted_length.
    pose proof (mathCeilDiv_bounds (Z.of_nat (length l)) perPage perPage_pos)
      as [_ Hcover].
    fold (pages l) in Hcover.
    assert (0 <= pages l) by (unfold pages, mathCeilDiv in *; nia).
    nia.
  - intros j _. rewrite page_chunk by lia.
    f_equal. f_equal. nia.
Qed.

Lemma paginates :
  Paginates rt dateOf perPage pages sorted page.
Proof.
  intros l. split; [reflexivity|].
  split; [apply sorted_permutation|].
  split; [apply sorted_descending|].
  split; [apply page_segment | apply pages_concat].
Qed.
End Pagination.



(** ** The statements on the sample inputs *)

Lemma chartData_counts_witness :
  sumConversations (chartData Utc.runtime (Some Sample.response) Range12h Sample.noon)
  = 2%nat
  /\ (sumConversations (chartData Utc.runtime (Some Sample.response) Range12h Sample.noon)
      <= 4)%nat.
Proof.
  pose proof (chartData_counts Utc.runtime Sample.response Range12h Sample.noon) as H.
  cbv zeta in H. destruct H as (Hsum & _ & Hle & _).
  split; [exact Hsum | exact Hle].
Defined.

Lemma bucket_label_instant_witness :
  In (1704153600000, {| label := "12:34 AM"; count := 0 |})
    (initBuckets Utc.runtime Range12h Sample.afterNoon
       (startTime Range12h Sample.afterNoon) JSMap.empty)
  /\ exists j currentTime,
       (j <= lookbackIntervals Range12h)%nat
       /\ currentTime = startTime Range12h Sample.afterNoon
                        + Z.of_nat j * intervalMs Range12h
       /\ "12:34 AM"%string = formatLabel Utc.runtime Range12h currentTime
       /\ 1704153600000 = bucketTimestamp Range12h currentTime
       /\ 1704153600000 <= currentTime < 1704153600000 + intervalMs Range12h
       /\ currentTime - 1704153600000 = Sample.afterNoon mod intervalMs Range12h
       /\ (currentTime = 1704153600000 <-> Sample.afterNoon mod intervalMs Range12h = 0).
Proof.
  split.
  - vm_compute. left. reflexivity.
  - apply (bucket_label_instant Utc.runtime Range12h Sample.afterNoon
             (1704153600000, {| label := "12:34 AM"; count := 0 |})).
    vm_compute. left. reflexivity.
Defined.

(** The scenario of C4: range 12h, now = 2024-01-02T12:00:00Z, a
    conversation at 2024-01-02T00:00:00Z. *)
Lemma range_filter_closed_witness :
  In (Sample.conv "c1" "2024-01-02T00:00:00Z") (conversation_history Sample.response)
  /\ dateParse Utc.runtime "2024-01-02T00:00:00Z" = Some 1704153600000
  /\ 1704153600000 = startTime Range12h Sample.noon
  /\ inTimeRange Utc.runtime Range12h Sample.noon
       (Sample.conv "c1" "2024-01-02T00:00:00Z") = true
  /\ exists first rest,
       chartData Utc.runtime (Some Sample.response) Range12h Sample.noon = first :: rest
       /\ (1 <= conversations first)%nat.
Proof.
  split; [left; reflexivity|].
  split; [vm_compute; reflexivity|].
  split; [vm_compute; reflexivity|].
  apply (range_filter_closed Utc.runtime Sample.response Range12h Sample.noon
           (Sample.conv "c1" "2024-01-02T00:00:00Z") 1704153600000).
  - left. reflexivity.
  - vm_compute. reflexivity.
  - vm_compute. reflexivity.
Defined.

Lemma chartKeys_epoch_aligned_witness :
  In 1704196800000 (chartKeys Utc.runtime Range12h Sample.noon Sample.history)
  /\ startTime Range12h Sample.afterNoon <= 1704196800000
  /\ 1704196800000 <= Sample.afterNoon
  /\ In 1704196800000 (chartKeys Utc.runtime Range12h Sample.afterNoon []).
Proof.
  assert (Hin : In 1704196800000
                  (chartKeys Utc.runtime Range12h Sample.noon Sample.history))
    by (vm_compute; repeat (first [left; reflexivity | right])).
  assert (Hlo : startTime Range12h Sample.afterNoon <= 1704196800000)
    by (vm_compute; discriminate).
  assert (Hhi : 1704196800000 <= Sample.afterNoon) by (vm_compute; discriminate).
  split; [exact Hin|]. split; [exact Hlo|]. split; [exact Hhi|].
  exact (proj2 (proj2 (chartKeys_epoch_aligned Utc.runtime Utc.runtime Range12h
                         Sample.noon Sample.afterNoon Sample.history []
                         1704196800000 Hin)) Hlo Hhi).
Defined.

Lemma unparseable_dropped_witness :
  dateParse Utc.runtime (Conversation.created_at (Sample.conv "c4" "yesterday")) = None
  /\ chartData Utc.runtime
       (Some (withHistory Sample.response
                ([Sample.conv "c1" "2024-01-02T00:00:00Z"]
                 ++ Sample.conv "c4" "yesterday"
                 :: [Sample.conv "c2" "2024-01-02T12:00:00Z"])))
       Range12h Sample.noon
     = chartData Utc.runtime
         (Some (withHistory Sample.response
                  ([Sample.conv "c1" "2024-01-02T00:00:00Z"]
                   ++ [Sample.conv "c2" "2024-01-02T12:00:00Z"])))
         Range12h Sample.noon.
Proof.
  split; [vm_compute; reflexivity|].
  apply (unparseable_dropped Utc.runtime Sample.response Range12h Sample.noon
           [Sample.conv "c1" "2024-01-02T00:00:00Z"]
           (Sample.conv "c4" "yesterday")
           [Sample.conv "c2" "2024-01-02T12:00:00Z"]).
  vm_compute. reflexivity.
Defined.


(** The ratings 4, 0, none, 5, 5: the average is (4 + 5 + 5) / 3 in binary64,
    printed 4.666666666666667. *)
Lemma calculateAverageRating_spec_witness :
  ratedConversations Sample.ratings <> []
  /\ calculateAverageRating Sample.ratings
     = Some (ratingSum Sample.ratings
             / lengthNumber (length (ratedConversations Sample.ratings)))%float
  /\ calculateAverageRating Sample.ratings = Some 0x1.2aaaaaaaaaaabp+2%float.
Proof.
  assert (Hrated : ratedConversations Sample.ratings <> [])
    by (vm_compute; discriminate).
  split; [exact Hrated|].
  pose proof (calculateAverageRating_spec Sample.ratings) as H.
  cbv zeta in H. destruct H as (_ & Hsome & _).
  split; [exact (proj2 (Hsome Hrated))|].
  vm_compute. reflexivity.
Defined.


(** * Further properties *)

(** ** The chart series *)

Lemma filter_nil_iff {A} (f : A -> bool) l :
  filter f l = [] <-> forall x, In x l -> f x = false.
Proof.
  induction l as [|x l IH]; cbn [filter In].
  - split; [intros _ x [] | reflexivity].
  - destruct (f x) eqn:Hfx.
    + split; [discriminate|]. intros H. specialize (H x (or_introl eq_refl)).
      congruence.
    + rewrite IH. split.
      * intros H y [<-|Hy]; auto.
      * intros H y Hy. apply H. now right.
Qed.

Lemma filter_perm {A} (f : A -> bool) l l' :
  Permutation l l' -> Permutation (filter f l) (filter f l').
Proof.
  induction 1 as [|x l l' Hp IH|x y l|l l' l'' Hp1 IH1 Hp2 IH2]; cbn [filter].
  - constructor.
  - destruct (f x); [now constructor | assumption].
  - destruct (f x), (f y); try reflexivity. apply perm_swap.
  - now transitivity (filter f l').
Qed.

Lemma hits_app rt timeRange convs convs' k :
  hits rt timeRange (convs ++ convs') k
  = (hits rt timeRange convs k + hits rt timeRange convs' k)%nat.
Proof. unfold hits. now rewrite filter_app, length_app. Qed.

Lemma list_sum_zero (l : list nat) :
  list_sum l = 0%nat <-> Forall (fun n => n = 0%nat) l.
Proof.
  induction l as [|n l IH]; [split; [constructor | reflexivity]|].
  rewrite list_sum_cons. split.
  - intros H. constructor; [lia|]. apply IH. lia.
  - intros H. inversion H; subst. apply IH in H3. lia.
Qed.

(** X1: the series is flat at zero exactly when no conversation passes the
    range filter; in particular for an empty history, and for a history
    entirely outside the window or without readable dates. *)
Theorem chartData_all_zero rt stats timeRange now :
  Forall (fun p => conversations p = 0%nat) (chartData rt (Some stats) timeRange now)
  <-> (forall conv, In conv (conversation_history stats) ->
         inTimeRange rt timeRange now conv = false).
Proof.
  rewrite <- filter_nil_iff. fold (filteredConversations rt timeRange now
                                     (conversation_history stats)).
  rewrite <- length_zero_iff_nil, <- sumConversations_filtered.
  unfold sumConversations. rewrite list_sum_zero, Forall_map. reflexivity.
Qed.

Lemma chartData_all_zero_witness :
  Forall (fun p => conversations p = 0%nat)
    (chartData Utc.runtime (Some (Sample.statsOf [])) Range7d Sample.noon).
Proof.
  apply (proj2 (chartData_all_zero Utc.runtime (Sample.statsOf []) Range7d Sample.noon)).
  intros conv [].
Defined.

(** X2: the series does not depend on the order of the conversations in the
    history. *)
Theorem chartData_order_independent rt stats stats' timeRange now :
  Permutation (conversation_history stats) (conversation_history stats') ->
  chartData rt (Some stats) timeRange now = chartData rt (Some stats') timeRange now.
Proof.
  intros Hperm. unfold chartData. f_equal. rewrite !sortedRows_eq.
  apply map_ext. intros t. unfold rowAt. f_equal.
  unfold hits, filteredConversations.
  apply Permutation_length. now do 2 apply filter_perm.
Qed.

Lemma chartData_order_independent_witness :
  Permutation (conversation_history (Sample.statsOf Sample.history))
    (conversation_history (Sample.statsOf (rev Sample.history)))
  /\ chartData Utc.runtime (Some (Sample.statsOf Sample.history)) Range12h Sample.noon
     = chartData Utc.runtime (Some (Sample.statsOf (rev Sample.history)))
         Range12h Sample.noon.
Proof.
  assert (Hperm : Permutation (conversation_history (Sample.statsOf Sample.history))
                    (conversation_history (Sample.statsOf (rev Sample.history))))
    by apply Permutation_rev.
  split; [exact Hperm|].
  exact (chartData_order_independent Utc.runtime _ _ Range12h Sample.noon Hperm).
Defined.

Lemma map_pointwise_sum {A} (f g : A -> nat) l :
  map (fun x => (f x + g x)%nat) l
  = map (fun ab => (fst ab + snd ab)%nat) (combine (map f l) (map g l)).
Proof.
  induction l as [|x l IH]; [reflexivity|].
  cbn [map combine fst snd]. now rewrite IH.
Qed.

(** X3: the series is additive in the history.  The chart of two histories
    put together has the labels of each chart and, point by point, the sum
    of their counts. *)
Theorem chartData_additive rt stats history history' timeRange now :
  let chart h := chartData rt (Some (withHistory stats h)) timeRange now in
  map time (chart (history ++ history')) = map time (chart history)
  /\ map time (chart history') = map time (chart history)
  /\ map conversations (chart (history ++ history'))
     = map (fun ab => (fst ab + snd ab)%nat)
         (combine (map conversations (chart history))
            (map conversations (chart history'))).
Proof.
  intros chart. subst chart. unfold chartData, withHistory.
  cbn [conversation_history]. rewrite !sortedRows_eq, !map_map.
  cbn [toPoint rowAt time conversations row_time row_conversations].
  split; [reflexivity|]. split; [reflexivity|].
  rewrite <- map_pointwise_sum. apply map_ext. intros t.
  unfold filteredConversations. rewrite filter_app. apply hits_app.
Qed.

Lemma arithmetic_adjacent (a0 step : Z) (start n : nat) before a b after :
  map (fun j => a0 + Z.of_nat j * step) (seq start n) = before ++ a :: b :: after ->
  b = a + step.
Proof.
  remember (fun j => a0 + Z.of_nat j * step) as f eqn:Hf.
  assert (Hstep : forall j, f (S j) = f j + step) by (intros j; subst f; lia).
  clear Hf.
  revert start before. induction n as [|n IH]; intros start before Heq.
  - destruct before; discriminate.
  - cbn [seq map] in Heq. destruct before as [|x before]; cbn [app] in Heq.
    + injection Heq as Ha Hrest. destruct n as [|n]; [discriminate|].
      cbn [seq map] in Hrest. injection Hrest as Hb _.
      rewrite <- Ha, <- Hb. apply Hstep.
    + injection Heq as _ Hrest. now apply (IH (S start) before).
Qed.

(** X4: the buckets tile the window without gaps.  The first key is the
    interval start covering [startTime], the last the one covering [now],
    neighbouring keys are exactly one interval apart, and an instant of
    [startTime, now] lies in the interval of one bucket only, that of its
    own key. *)
Theorem chartKeys_contiguous rt timeRange now history :
  let keys := chartKeys rt timeRange now history in
  hd 0 keys = bucketTimestamp timeRange (startTime timeRange now)
  /\ last keys 0 = bucketTimestamp timeRange now
  /\ (forall before a b after, keys = before ++ a :: b :: after ->
        b = a + intervalMs timeRange)
  /\ (forall t, startTime timeRange now <= t <= now ->
        In (bucketTimestamp timeRange t) keys
        /\ forall k, In k keys ->
             (k <= t < k + intervalMs timeRange <-> k = bucketTimestamp timeRange t)).
Proof.
  intros keys. subst keys.
  pose proof (intervalMs_pos timeRange) as Hpos.
  split; [|split; [|split]].
  - rewrite chartKeys_eq. cbn [seq map hd]. lia.
  - rewrite chartKeys_eq, seq_S, map_app. cbn [map Nat.add].
    rewrite last_last, <- bucketTimestamp_shift, <- now_from_startTime.
    reflexivity.
  - intros before a b after Heq. rewrite chartKeys_eq in Heq.
    exact (arithmetic_adjacent _ _ _ _ _ _ _ _ Heq).
  - intros t Ht. split; [now apply in_range_key|].
    intros k Hk. apply chartKeys_spec in Hk. destruct Hk as (Haligned & _).
    pose proof (bucketTimestamp_bounds timeRange t) as Hb.
    split.
    + intros Hin. unfold bucketTimestamp.
      apply Z.mod_divide in Haligned; [|lia]. destruct Haligned as [q ->].
      f_equal.
      apply (Z.div_unique t (intervalMs timeRange) q (t - q * intervalMs timeRange));
        lia.
    + intros ->. exact Hb.
Qed.

Lemma chartKeys_contiguous_witness :
  startTime Range12h Sample.afterNoon <= 1704160000000 <= Sample.afterNoon
  /\ In (bucketTimestamp Range12h 1704160000000)
       (chartKeys Utc.runtime Range12h Sample.afterNoon Sample.history).
Proof.
  assert (Hrange : startTime Range12h Sample.afterNoon <= 1704160000000
                   <= Sample.afterNoon)
    by (vm_compute; split; discriminate).
  split; [exact Hrange|].
  pose proof (chartKeys_contiguous Utc.runtime Range12h Sample.afterNoon
                Sample.history) as H.
  cbv zeta in H. destruct H as (_ & _ & _ & Hcover).
  exact (proj1 (Hcover 1704160000000 Hrange)).
Defined.

(** The series point by point: one per loop instant. *)
Lemma chartData_points rt stats timeRange now :
  chartData rt (Some stats) timeRange now
  = map (fun j => toPoint
           (rowAt rt timeRange
              (filteredConversations rt timeRange now (conversation_history stats))
              (startTime timeRange now + Z.of_nat j * intervalMs timeRange)))
      (seq 0 (S (lookbackIntervals timeRange))).
Proof.
  unfold chartData. rewrite sortedRows_eq. unfold loopInstants.
  rewrite remainingSteps_main, !map_map. reflexivity.
Qed.

Lemma inTimeRange_7d_30d rt now conv :
  inTimeRange rt Range7d now conv = true -> inTimeRange rt Range30d now conv = true.
Proof.
  rewrite !inTimeRange_spec. intros (t & Hparse & Hrange).
  exists t. split; [exact Hparse|]. unfold startTime, lookbackMs in *. lia.
Qed.

Lemma hits_7d_30d rt now history k :
  (hits rt Range7d (filteredConversations rt Range7d now history) k
   <= hits rt Range30d (filteredConversations rt Range30d now history) k)%nat
  /\ (startTime Range7d now <= k ->
      hits rt Range7d (filteredConversations rt Range7d now history) k
      = hits rt Range30d (filteredConversations rt Range30d now history) k).
Proof.
  unfold filteredConversations.
  induction history as [|conv history [IHle IHeq]]; [split; reflexivity|].
  cbn [filter].
  assert (Hkey : keyMatches rt Range7d k conv = keyMatches rt Range30d k conv)
    by reflexivity.
  destruct (inTimeRange rt Range7d now conv) eqn:H7.
  - rewrite (inTimeRange_7d_30d rt now conv H7), !hits_cons, Hkey. split.
    + lia.
    + intros Hk. now rewrite IHeq.
  - destruct (inTimeRange rt Range30d now conv) eqn:H30; [|split; assumption].
    rewrite hits_cons. split; [lia|]. intros Hk.
    destruct (keyMatches rt Range30d k conv) eqn:Hmatch; [|now apply IHeq].
    exfalso.
    apply inTimeRange_spec in H30. destruct H30 as (t & Hparse & Hrange).
    assert (H7' : inTimeRange rt Range7d now conv = true).
    { apply inTimeRange_spec. exists t. split; [exact Hparse|].
      unfold keyMatches, conversationKey in Hmatch. rewrite Hparse in Hmatch.
      cbn [option_map] in Hmatch. apply Z.eqb_eq in Hmatch.
      pose proof (bucketTimestamp_bounds Range30d t). lia. }
    congruence.
Qed.

(** X5: the 7-day chart is the end of the 30-day chart.  Computed for the
    same history and the same [now], its points after the first are the last
    seven points of the 30-day chart, label and count; its first point has
    the label of the corresponding 30-day point and at most its count (the
    7-day window cuts that day at [startTime]). *)
Theorem chart_7d_end_of_30d rt stats now :
  exists first7 first30 rest,
    chartData rt (Some stats) Range7d now = first7 :: rest
    /\ skipn 23 (chartData rt (Some stats) Range30d now) = first30 :: rest
    /\ time first7 = time first30
    /\ (conversations first7 <= conversations first30)%nat.
Proof.
  rewrite !chartData_points.
  set (g7 := fun j => toPoint (rowAt rt Range7d _ _)).
  set (g30 := fun j => toPoint (rowAt rt Range30d _ _)).
  assert (Hinstant : forall j : nat,
            startTime Range30d now + Z.of_nat (j + 23) * intervalMs Range30d
            = startTime Range7d now + Z.of_nat j * intervalMs Range7d).
  { intros j. unfold startTime, lookbackMs, intervalMs. lia. }
  assert (Hpoint : forall j : nat,
            time (g7 j) = time (g30 (j + 23)%nat)
            /\ (conversations (g7 j) <= conversations (g30 (j + 23)%nat))%nat
            /\ ((1 <= j)%nat -> g7 j = g30 (j + 23)%nat)).
  { intros j. subst g7 g30. cbv beta. rewrite Hinstant.
    change (bucketTimestamp Range30d) with (bucketTimestamp Range7d).
    unfold toPoint, rowAt.
    cbn [time conversations row_time row_conversations formatLabel].
    split; [reflexivity|]. split; [apply hits_7d_30d|].
    intros Hj. f_equal. apply hits_7d_30d.
    change (bucketTimestamp Range30d) with (bucketTimestamp Range7d).
    rewrite bucketTimestamp_shift.
    pose proof (bucketTimestamp_bounds Range7d (startTime Range7d now)).
    pose proof (intervalMs_pos Range7d). nia. }
  change (S (lookbackIntervals Range7d)) with 8%nat.
  change (S (lookbackIntervals Range30d)) with (23 + 8)%nat.
  rewrite (seq_app 23 8 0), map_app, skipn_app, length_map, length_seq.
  rewrite skipn_all2 by (rewrite length_map, length_seq; lia).
  cbn [Nat.sub skipn app Nat.add seq map].
  exists (g7 0%nat), (g30 23%nat),
    [g7 1%nat; g7 2%nat; g7 3%nat; g7 4%nat; g7 5%nat; g7 6%nat; g7 7%nat].
  assert (Hrest : forall j, (1 <= j)%nat -> g7 j = g30 (j + 23)%nat)
    by (intros j; apply Hpoint).
  split; [reflexivity|]. split.
  - rewrite (Hrest 1%nat), (Hrest 2%nat), (Hrest 3%nat), (Hrest 4%nat),
      (Hrest 5%nat), (Hrest 6%nat), (Hrest 7%nat) by lia.
    reflexivity.
  - split; apply (Hpoint 0%nat).
Qed.

(** ** The two series of the later DashboardEntry *)

Lemma initBuckets_step rt timeRange now currentTime buckets :
  currentTime <= now ->
  initBuckets rt timeRange now currentTime buckets
  = initBuckets rt timeRange now (currentTime + intervalMs timeRange)
      (JSMap.set (bucketTimestamp timeRange currentTime)
         {| label := formatLabel rt timeRange currentTime; count := 0 |} buckets).
Proof.
  intros Hle. rewrite !initBuckets_fold, loopInstants_step by assumption.
  reflexivity.
Qed.

Lemma initBuckets_done rt timeRange now currentTime buckets :
  now < currentTime -> initBuckets rt timeRange now currentTime buckets = buckets.
Proof.
  intros Hlt. rewrite initBuckets_fold, loopInstants_done by assumption.
  reflexivity.
Qed.

(** The shared loop initialises each of the two maps as the loop of the
    conversation chart does. *)
Lemma initBucketPair_eq rt timeRange now currentTime userBuckets conversationBuckets :
  Timeline.initBucketPair rt timeRange now currentTime userBuckets conversationBuckets
  = (initBuckets rt timeRange now currentTime userBuckets,
     initBuckets rt timeRange now currentTime conversationBuckets).
Proof.
  funelim (Timeline.initBucketPair rt timeRange now currentTime
             userBuckets conversationBuckets).
  - rewrite (initBuckets_step _ _ _ currentTime userBuckets),
      (initBuckets_step _ _ _ currentTime conversationBuckets) by assumption.
    assumption.
  - rewrite !initBuckets_done by lia. reflexivity.
Qed.

Lemma fold_countUser rt timeRange users buckets :
  fold_left (Timeline.countUser rt timeRange) users buckets
  = fold_left (countConversation rt timeRange)
      (map Timeline.asConversation users) buckets.
Proof.
  revert buckets. induction users as [|user users IH]; intros buckets;
    [reflexivity|].
  cbn [map fold_left]. rewrite IH. reflexivity.
Qed.

Lemma filteredUsers_asConversation rt timeRange now stats :
  map Timeline.asConversation (Timeline.filteredUsers rt timeRange now stats)
  = filteredConversations rt timeRange now
      (map Timeline.asConversation (Timeline.timelineOf stats)).
Proof.
  unfold Timeline.filteredUsers, filteredConversations.
  fold (Timeline.timelineOf stats).
  induction (Timeline.timelineOf stats) as [|user users IH]; [reflexivity|].
  cbn [map filter].
  change (inTimeRange rt timeRange now (Timeline.asConversation user))
    with (Timeline.inTimeRangeUser rt timeRange now user).
  destruct (Timeline.inTimeRangeUser rt timeRange now user); cbn [map];
    now rewrite IH.
Qed.

Lemma userRows_sortedRows rt stats timeRange now :
  Timeline.userRows rt stats timeRange now
  = sortedRows rt timeRange now
      (map Timeline.asConversation (Timeline.timelineOf stats)).
Proof.
  unfold Timeline.userRows, Timeline.rowsOf, sortedRows, countedBuckets.
  rewrite initBucketPair_eq, fold_countUser, filteredUsers_asConversation.
  reflexivity.
Qed.

Lemma conversationRows_sortedRows rt stats timeRange now :
  Timeline.conversationRows rt stats timeRange now
  = sortedRows rt timeRange now (conversation_history (response stats)).
Proof.
  unfold Timeline.conversationRows, Timeline.rowsOf, sortedRows, countedBuckets.
  rewrite initBucketPair_eq. reflexivity.
Qed.

(** X6: adding the user series left the conversation series as it was.  The
    later component's [conversationChartData] is the series the earlier
    component computes from the same response, range and clock reading, and
    is empty like it while the stats are not loaded. *)
Theorem conversationChartData_unchanged rt (stats : option TimelineStats) timeRange now :
  Timeline.conversationChartData (Timeline.processTimelineData rt stats timeRange now)
  = chartData rt (option_map response stats) timeRange now.
Proof.
  destruct stats as [s|]; [|reflexivity].
  cbn [Timeline.processTimelineData Timeline.conversationChartData option_map].
  unfold chartData. now rewrite conversationRows_sortedRows.
Qed.

(** X7: the user series is the conversation chart of the users' dates: as
    many points, the same labels, and for counts those of [chartData] run on
    the timeline with every user taken as an event ([asConversation]); a
    missing timeline is an empty one. *)
Theorem userChartData_as_chart rt stats timeRange now :
  Timeline.userChartData (Timeline.processTimelineData rt (Some stats) timeRange now)
  = map (fun p => {| UserPoint.time := time p; UserPoint.users := conversations p |})
      (chartData rt
         (Some (withHistory (response stats)
                  (map Timeline.asConversation (Timeline.timelineOf stats))))
         timeRange now).
Proof.
  cbn [Timeline.processTimelineData Timeline.userChartData].
  unfold chartData, withHistory. cbn [conversation_history].
  rewrite userRows_sortedRows, map_map. reflexivity.
Qed.

(** X8: the two series share their x axis: point for point the user series
    and the conversation series have the same label, whatever the users and
    conversations are. *)
Theorem series_labels_agree rt stats timeRange now :
  let series := Timeline.processTimelineData rt (Some stats) timeRange now in
  map UserPoint.time (Timeline.userChartData series)
  = map time (Timeline.conversationChartData series)
  /\ length (Timeline.userChartData series)
     = length (Timeline.conversationChartData series).
Proof.
  intros series. subst series.
  cbn [Timeline.processTimelineData Timeline.userChartData
         Timeline.conversationChartData].
  rewrite userRows_sortedRows, conversationRows_sortedRows, !sortedRows_eq.
  rewrite !map_map, !length_map. split; reflexivity.
Qed.

(** X9: the counts of the user series add up to the number of users of the
    timeline dated within [startTime, now]; without a timeline in the
    response every point is at zero. *)
Theorem userChartData_counts rt stats timeRange now :
  let series := Timeline.processTimelineData rt (Some stats) timeRange now in
  list_sum (map UserPoint.users (Timeline.userChartData series))
  = length (Timeline.filteredUsers rt timeRange now stats)
  /\ (list_sum (map UserPoint.users (Timeline.userChartData series))
      <= length (Timeline.timelineOf stats))%nat
  /\ (all_users_timeline stats = None ->
      Forall (fun p => UserPoint.users p = 0%nat) (Timeline.userChartData series)).
Proof.
  intros series. subst series.
  cbn [Timeline.processTimelineData Timeline.userChartData].
  rewrite userRows_sortedRows, map_map.
  cbn [Timeline.toUserPoint UserPoint.users].
  pose proof (sumConversations_filtered rt
                (withHistory (response stats)
                   (map Timeline.asConversation (Timeline.timelineOf stats)))
                timeRange now) as Hsum.
  unfold sumConversations, chartData, withHistory in Hsum.
  cbn [conversation_history] in Hsum. rewrite map_map in Hsum.
  cbn [toPoint conversations] in Hsum.
  rewrite Hsum, <- filteredUsers_asConversation, length_map.
  split; [reflexivity|]. split.
  - unfold Timeline.filteredUsers. fold (Timeline.timelineOf stats).
    apply filter_length_le.
  - intros Hmissing. unfold Timeline.timelineOf. rewrite Hmissing.
    rewrite sortedRows_eq, map_map. apply Forall_map, Forall_forall.
    intros t _. reflexivity.
Qed.

Lemma userChartData_counts_witness :
  all_users_timeline (Sample2.timelineStats None) = None
  /\ Forall (fun p => UserPoint.users p = 0%nat)
       (Timeline.userChartData
          (Timeline.processTimelineData Utc.runtime
             (Some (Sample2.timelineStats None)) Range12h Sample.noon)).
Proof.
  split; [reflexivity|].
  pose proof (userChartData_counts Utc.runtime (Sample2.timelineStats None)
                Range12h Sample.noon) as H.
  cbv zeta in H. destruct H as (_ & _ & Hzero).
  apply Hzero. reflexivity.
Defined.

(** ** Sorting keeps ties in place *)

Section SortStable.
Context {A : Type} (compareFn : A -> A -> option Z) (tied : A -> bool).

(** Among the items selected by [tied] the comparator never asks for a
    swap. *)
Hypothesis tied_in_order :
  forall x y, tied x = true -> tied y = true -> compareResult (compareFn x y) <= 0.


End SortStable.




(** ** Slicing into pages *)

Section SlicePages.
Context {A : Type} (items : list A) (perPage : Z).
Hypothesis perPage_pos : 0 < perPage.

Let pages := mathCeilDiv (Z.of_nat (length items)) perPage.
Let page := fun currentPage : Z =>
  arraySlice items ((currentPage - 1) * perPage) (currentPage * perPage).

Lemma slice_chunk p :
  1 <= p ->
  page p = firstn (Z.to_nat perPage) (skipn (Z.to_nat ((p - 1) * perPage)) items).
Proof.
  intros Hp. unfold page.
  rewrite arraySlice_firstn_skipn by nia.
  f_equal. f_equal. lia.
Qed.

Lemma slice_segment p :
  1 <= p <= pages ->
  page p
  = segment items (Z.to_nat ((p - 1) * perPage))
      (Z.to_nat (Z.min (p * perPage) (Z.of_nat (length items))))
  /\ (1 <= length (page p))%nat
  /\ Z.of_nat (length (page p)) <= perPage.
Proof.
  intros [Hlo Hhi].
  pose proof (mathCeilDiv_bounds (Z.of_nat (length items)) perPage perPage_pos)
    as [Hlast _].
  fold pages in Hlast.
  assert (Hstart : (p - 1) * perPage < Z.of_nat (length items)) by nia.
  rewrite slice_chunk by assumption. unfold segment.
  assert (Hchunk :
    firstn (Z.to_nat perPage) (skipn (Z.to_nat ((p - 1) * perPage)) items)
    = firstn (Z.to_nat (Z.min (p * perPage) (Z.of_nat (length items)))
              - Z.to_nat ((p - 1) * perPage))
        (skipn (Z.to_nat ((p - 1) * perPage)) items)).
  { destruct (Z.le_gt_cases (p * perPage) (Z.of_nat (length items))) as [Hfull|Hpart].
    - rewrite Z.min_l by lia. f_equal. nia.
    - rewrite Z.min_r by lia.
      rewrite !firstn_all2; [reflexivity| |]; rewrite length_skipn; nia. }
  split; [exact Hchunk|].
  rewrite Hchunk, length_firstn, length_skipn. split; nia.
Qed.

Lemma slice_pages_concat :
  concat (map page (pageNumbers pages)) = items.
Proof.
  unfold pageNumbers. rewrite map_map.
  rewrite (map_ext_in _
             (fun j => firstn (Z.to_nat perPage)
                         (skipn (j * Z.to_nat perPage) items))).
  - rewrite chunks_concat. apply firstn_all2.
    pose proof (mathCeilDiv_bounds (Z.of_nat (length items)) perPage perPage_pos)
      as [_ Hcover].
    fold pages in Hcover.
    assert (0 <= pages) by (unfold pages, mathCeilDiv in *; nia).
    nia.
  - intros j _. rewrite slice_chunk by lia.
    f_equal. f_equal. nia.
Qed.

Lemma slice_out_of_range p :
  pages < p -> page p = [].
Proof.
  intros Hp.
  pose proof (mathCeilDiv_bounds (Z.of_nat (length items)) perPage perPage_pos)
    as [_ Hcover].
  fold pages in Hcover.
  assert (0 <= pages) by (unfold pages, mathCeilDiv in *; nia).
  rewrite slice_chunk by lia.
  rewrite skipn_all2 by nia. apply firstn_nil.
Qed.
End SlicePages.

(** X11: the categories of UserBackgroundInfo.  For every category the
    sorted items are the entries of its dictionary in descending order of
    count; every page from 1 to [totalPages] is the segment of them from
    [(p-1) * 25] to [min (p * 25) length], with 1 to 25 items; the pages in
    sequence are the sorted items; and a page beyond [totalPages] is empty. *)
Theorem userBackground_pages stats activeCategory :
  let sorted := UserBackgroundInfo.sortedItems stats activeCategory in
  let pages := UserBackgroundInfo.totalPages stats activeCategory in
  let page := UserBackgroundInfo.currentItems stats activeCategory in
  Permutation sorted
    (UserBackgroundInfo.data (UserBackgroundInfo.getCategoryData stats activeCategory))
  /\ StronglySorted
       (fun a b => StatInfo.count (snd b) <= StatInfo.count (snd a)) sorted
  /\ (forall p, 1 <= p <= pages ->
        page p
        = segment sorted (Z.to_nat ((p - 1) * 25))
            (Z.to_nat (Z.min (p * 25) (Z.of_nat (length sorted))))
        /\ (1 <= length (page p))%nat
        /\ Z.of_nat (length (page p)) <= 25)
  /\ concat (map page (pageNumbers pages)) = sorted
  /\ (forall p, pages < p -> page p = []).
Proof.
  intros sorted pages page.
  set (compareFn := fun a b : string * StatInfo.t =>
                      Some (StatInfo.count (snd b) - StatInfo.count (snd a))).
  split; [apply (arraySort_perm compareFn)|]. split.
  - apply StronglySorted_impl with (R := inOrder compareFn).
    + intros a b. unfold inOrder, compareFn, compareResult. lia.
    + apply Sorted_StronglySorted.
      * intros a b c. unfold inOrder, compareFn, compareResult. lia.
      * apply arraySort_sorted.
        intros a b. unfold compareFn, compareResult. lia.
  - split; [|split].
    + intros p Hp. apply (slice_segment sorted 25); [reflexivity | exact Hp].
    + apply (slice_pages_concat sorted 25). reflexivity.
    + intros p Hp. apply (slice_out_of_range sorted 25); [reflexivity | exact Hp].
Qed.

Lemma userBackground_pages_witness :
  1 <= 2 <= UserBackgroundInfo.totalPages Sample2.education UserBackgroundInfo.Fields
  /\ (1 <= length (UserBackgroundInfo.currentItems Sample2.education
                     UserBackgroundInfo.Fields 2))%nat
  /\ Z.of_nat (length (UserBackgroundInfo.currentItems Sample2.education
                         UserBackgroundInfo.Fields 2)) <= 25.
Proof.
  assert (Hp : 1 <= 2 <= UserBackgroundInfo.totalPages Sample2.education
                            UserBackgroundInfo.Fields)
    by (vm_compute; split; discriminate).
  split; [exact Hp|].
  pose proof (userBackground_pages Sample2.education UserBackgroundInfo.Fields) as H.
  cbv zeta in H. destruct H as (_ & _ & Hpages & _).
  destruct (Hpages 2 Hp) as (_ & Hlo & Hhi). split; assumption.
Defined.

(** ** Page navigation *)

Lemma totalPages_pos (len perPage : Z) :
  0 < perPage -> 1 <= len -> 1 <= mathCeilDiv len perPage.
Proof.
  intros Hpos Hlen.
  pose proof (mathCeilDiv_bounds len perPage Hpos) as [_ Hcover]. nia.
Qed.

Lemma clickPager_in_range totalPages currentPage button :
  1 <= currentPage <= totalPages ->
  1 <= clickPager totalPages currentPage button <= totalPages.
Proof.
  intros Hp. unfold clickPager.
  destruct button;
    repeat match goal with
           | |- context [if ?b then _ else _] => destruct b
           end; lia.
Qed.

Lemma fold_clickPager_in_range totalPages clicks p :
  1 <= p <= totalPages ->
  1 <= fold_left (clickPager totalPages) clicks p <= totalPages.
Proof.
  revert p. induction clicks as [|button clicks IH]; intros p Hp; [exact Hp|].
  cbn [fold_left]. apply IH. now apply clickPager_in_range.
Qed.

Lemma pageAfter_in_range totalPages clicks :
  1 <= totalPages -> 1 <= pageAfter totalPages clicks <= totalPages.
Proof.
  intros Hpages. unfold pageAfter. apply fold_clickPager_in_range. lia.
Qed.

Lemma userBackground_clickPager_in_range totalPages currentPage button :
  1 <= currentPage <= totalPages ->
  1 <= UserBackgroundInfo.clickPager totalPages currentPage button <= totalPages.
Proof.
  intros Hp. unfold UserBackgroundInfo.clickPager.
  destruct button;
    repeat match goal with
           | |- context [if ?b then _ else _] => destruct b
           end; lia.
Qed.

Lemma fold_userBackground_clickPager_in_range totalPages clicks p :
  1 <= p <= totalPages ->
  1 <= fold_left (UserBackgroundInfo.clickPager totalPages) clicks p <= totalPages.
Proof.
  revert p. induction clicks as [|button clicks IH]; intros p Hp; [exact Hp|].
  cbn [fold_left]. apply IH. now apply userBackground_clickPager_in_range.
Qed.

(** X12: the pager never leaves the pages.  Whatever buttons are clicked, in
    any order, starting from the first page of a view with at least one
    item, the current page stays within [1 .. totalPages] and shows between
    one item and a full page. *)
Theorem pager_stays_on_pages engine rt :
  (forall conversations clicks, conversations <> [] ->
     let p := pageAfter (RecentConversations.totalPages conversations) clicks in
     1 <= p <= RecentConversations.totalPages conversations
     /\ (1 <= length (RecentConversations.currentConversations engine rt conversations p))%nat
     /\ Z.of_nat (length (RecentConversations.currentConversations engine rt conversations p))
        <= 50)
  /\ (forall notes clicks, notes <> [] ->
        let p := pageAfter (NotesPage.totalPages notes) clicks in
        1 <= p <= NotesPage.totalPages notes
        /\ (1 <= length (NotesPage.currentNotes engine rt notes p))%nat
        /\ Z.of_nat (length (NotesPage.currentNotes engine rt notes p)) <= 25)
  /\ (forall stats activeCategory clicks,
        UserBackgroundInfo.data
          (UserBackgroundInfo.getCategoryData stats activeCategory) <> [] ->
        let pages := UserBackgroundInfo.totalPages stats activeCategory in
        let p := fold_left (UserBackgroundInfo.clickPager pages) clicks 1 in
        1 <= p <= pages
        /\ (1 <= length (UserBackgroundInfo.currentItems stats activeCategory p))%nat
        /\ Z.of_nat (length (UserBackgroundInfo.currentItems stats activeCategory p))
           <= 25).
Proof.
  split; [|split].
  - intros conversations clicks Hne p.
    assert (Hpages : 1 <= RecentConversations.totalPages conversations).
    { apply totalPages_pos; [reflexivity|].
      destruct conversations; [contradiction | cbn [length]; lia]. }
    assert (Hp : 1 <= p <= RecentConversations.totalPages conversations)
      by (apply pageAfter_in_range; exact Hpages).
    split; [exact Hp|].
    destruct (paginates engine rt ConversationInfo.generated_at 50 eq_refl conversations)
      as (_ & _ & _ & Hpage & _).
    destruct (Hpage p Hp) as (_ & Hlo & Hhi). split; assumption.
  - intros notes clicks Hne p.
    assert (Hpages : 1 <= NotesPage.totalPages notes).
    { apply totalPages_pos; [reflexivity|].
      destruct notes; [contradiction | cbn [length]; lia]. }
    assert (Hp : 1 <= p <= NotesPage.totalPages notes)
      by (apply pageAfter_in_range; exact Hpages).
    split; [exact Hp|].
    destruct (paginates engine rt NoteInfo.created_at 25 eq_refl notes)
      as (_ & _ & _ & Hpage & _).
    destruct (Hpage p Hp) as (_ & Hlo & Hhi). split; assumption.
  - intros stats activeCategory clicks Hne pages p.
    assert (Hpages : 1 <= pages).
    { apply totalPages_pos; [reflexivity|].
      unfold UserBackgroundInfo.sortedItems. rewrite arraySort_length.
      destruct (UserBackgroundInfo.data
                  (UserBackgroundInfo.getCategoryData stats activeCategory));
        [contradiction | cbn [length]; lia]. }
    assert (Hp : 1 <= p <= pages).
    { subst p. apply fold_userBackground_clickPager_in_range. lia. }
    split; [exact Hp|].
    destruct (slice_segment (UserBackgroundInfo.sortedItems stats activeCategory)
                25 eq_refl p Hp) as (_ & Hlo & Hhi).
    split; assumption.
Qed.

Lemma pager_stays_on_pages_witness :
  Sample.notes <> []
  /\ 1 <= pageAfter (NotesPage.totalPages Sample.notes)
            [NextPage; NextPage; PreviousPage; LastPage]
       <= NotesPage.totalPages Sample.notes.
Proof.
  assert (Hne : Sample.notes <> []) by discriminate.
  split; [exact Hne|].
  destruct (pager_stays_on_pages referenceEngine Utc.runtime) as (_ & Hnotes & _).
  exact (proj1 (Hnotes Sample.notes [NextPage; NextPage; PreviousPage; LastPage] Hne)).
Defined.

Lemma arraySlice_nil {A} (start end_ : Z) : arraySlice (@nil A) start end_ = [].
Proof. unfold arraySlice. now rewrite skipn_nil, firstn_nil. Qed.

Lemma slice_of_sorted_nil {A} engine (compareFn : A -> A -> option Z) start end_ :
  arraySlice (engineSort engine A compareFn []) start end_ = [].
Proof.
  rewrite (Permutation_nil (Permutation_sym (engineSort_permutation engine A compareFn []))).
  apply arraySlice_nil.
Qed.

Lemma fold_clickPager_empty clicks p :
  0 <= p <= 1 -> 0 <= fold_left (clickPager 0) clicks p <= 1.
Proof.
  revert p. induction clicks as [|button clicks IH]; intros p Hp; [exact Hp|].
  cbn [fold_left]. apply IH. unfold clickPager.
  destruct button;
    repeat match goal with
           | |- context [if ?b then _ else _] => destruct b eqn:?
           end; lia.
Qed.

Lemma pageAfter_empty clicks : 0 <= pageAfter 0 clicks <= 1.
Proof. unfold pageAfter. apply fold_clickPager_empty. lia. Qed.

(** X13: a view without items.  With no conversations (notes) there are 0
    pages, so on page 1 the next button is not disabled and takes the view to
    page 0; whatever is clicked the page is 0 or 1 and shows nothing, and on
    page 0 the range reads "-49 - 0" ("-24 - 0" for notes).  The pager of
    UserBackgroundInfo is not rendered then and its page stays 1. *)
Theorem pager_without_items engine rt :
  RecentConversations.totalPages [] = 0
  /\ NotesPage.totalPages [] = 0
  /\ clickPager 0 1 NextPage = 0
  /\ (forall clicks, 0 <= pageAfter 0 clicks <= 1)
  /\ (forall p, RecentConversations.currentConversations engine rt [] p = []
                /\ NotesPage.currentNotes engine rt [] p = [])
  /\ showingRange 50 0 (pageAfter 0 [NextPage]) = (-49, 0)
  /\ showingRange 25 0 (pageAfter 0 [NextPage]) = (-24, 0)
  /\ (forall clicks, fold_left (UserBackgroundInfo.clickPager 0) clicks 1 = 1).
Proof.
  repeat (split; [reflexivity|]).
  split; [apply pageAfter_empty|].
  split; [intros p; split; apply slice_of_sorted_nil|].
  repeat (split; [reflexivity|]).
  intros clicks. induction clicks as [|button clicks IH]; [reflexivity|].
  cbn [fold_left]. exact IH.
Qed.

Lemma segment_length {A} (l : list A) (from to : nat) :
  (from <= to <= length l)%nat -> length (segment l from to) = (to - from)%nat.
Proof.
  intros H. unfold segment. rewrite length_firstn, length_skipn. lia.
Qed.

Lemma showing_in_range (perPage len p : Z) :
  0 < perPage -> 1 <= p <= mathCeilDiv len perPage ->
  1 <= fst (showingRange perPage len p) <= snd (showingRange perPage len p)
  /\ snd (showingRange perPage len p) <= len
  /\ fst (showingRange perPage len p) - 1 = (p - 1) * perPage
  /\ snd (showingRange perPage len p) = Z.min (p * perPage) len.
Proof.
  intros Hpos Hp.
  pose proof (mathCeilDiv_bounds len perPage Hpos) as [Hlast _].
  unfold showingRange. cbn [fst snd]. nia.
Qed.

(** X14: "Showing first - last of n" agrees with the page.  On every page
    from 1 to [totalPages] of the three views, [first] and [last] are
    positions of the sorted array with [1 <= first <= last <= n], the page
    holds exactly the items from position [first] to position [last], and
    [last - first + 1] is their number. *)
Theorem showing_matches_page engine rt :
  (forall conversations p, 1 <= p <= RecentConversations.totalPages conversations ->
     let n := Z.of_nat (length conversations) in
     let first := fst (showingRange 50 n p) in
     let last := snd (showingRange 50 n p) in
     1 <= first <= last /\ last <= n
     /\ RecentConversations.currentConversations engine rt conversations p
        = segment (RecentConversations.sortedConversations engine rt conversations)
            (Z.to_nat (first - 1)) (Z.to_nat last)
     /\ Z.of_nat (length (RecentConversations.currentConversations engine rt conversations p))
        = last - first + 1)
  /\ (forall notes p, 1 <= p <= NotesPage.totalPages notes ->
        let n := Z.of_nat (length notes) in
        let first := fst (showingRange 25 n p) in
        let last := snd (showingRange 25 n p) in
        1 <= first <= last /\ last <= n
        /\ NotesPage.currentNotes engine rt notes p
           = segment (NotesPage.sortedNotes engine rt notes)
               (Z.to_nat (first - 1)) (Z.to_nat last)
        /\ Z.of_nat (length (NotesPage.currentNotes engine rt notes p)) = last - first + 1)
  /\ (forall stats activeCategory p,
        1 <= p <= UserBackgroundInfo.totalPages stats activeCategory ->
        let sorted := UserBackgroundInfo.sortedItems stats activeCategory in
        let first := fst (UserBackgroundInfo.showingRange stats activeCategory p) in
        let last := snd (UserBackgroundInfo.showingRange stats activeCategory p) in
        1 <= first <= last /\ last <= Z.of_nat (length sorted)
        /\ UserBackgroundInfo.currentItems stats activeCategory p
           = segment sorted (Z.to_nat (first - 1)) (Z.to_nat last)
        /\ Z.of_nat (length (UserBackgroundInfo.currentItems stats activeCategory p))
           = last - first + 1).
Proof.
  split; [|split].
  - intros conversations p Hp n first last.
    destruct (showing_in_range 50 n p eq_refl Hp) as (Horder & Hmax & Hfirst & Hlast).
    fold first last in Horder, Hmax, Hfirst, Hlast.
    destruct (paginates engine rt ConversationInfo.generated_at 50 eq_refl conversations)
      as (_ & Hperm & _ & Hpage & _).
    destruct (Hpage p Hp) as (Hsegment & _).
    assert (Heq : RecentConversations.currentConversations engine rt conversations p
                  = segment (RecentConversations.sortedConversations engine rt conversations)
                      (Z.to_nat (first - 1)) (Z.to_nat last))
      by (rewrite Hfirst, Hlast; exact Hsegment).
    repeat split; try lia; [exact Heq|].
    rewrite Heq, segment_length; [lia|].
    unfold RecentConversations.sortedConversations.
    rewrite (Permutation_length Hperm). lia.
  - intros notes p Hp n first last.
    destruct (showing_in_range 25 n p eq_refl Hp) as (Horder & Hmax & Hfirst & Hlast).
    fold first last in Horder, Hmax, Hfirst, Hlast.
    destruct (paginates engine rt NoteInfo.created_at 25 eq_refl notes)
      as (_ & Hperm & _ & Hpage & _).
    destruct (Hpage p Hp) as (Hsegment & _).
    assert (Heq : NotesPage.currentNotes engine rt notes p
                  = segment (NotesPage.sortedNotes engine rt notes)
                      (Z.to_nat (first - 1)) (Z.to_nat last))
      by (rewrite Hfirst, Hlast; exact Hsegment).
    repeat split; try lia; [exact Heq|].
    rewrite Heq, segment_length; [lia|].
    unfold NotesPage.sortedNotes.
    rewrite (Permutation_length Hperm). lia.
  - intros stats activeCategory p Hp sorted first last.
    pose proof (mathCeilDiv_bounds (Z.of_nat (length sorted)) 25 eq_refl)
      as [Hbound _].
    destruct (slice_segment sorted 25 eq_refl p Hp) as (Hsegment & _).
    assert (Hfirst : first = (p - 1) * 25 + 1).
    { subst first. unfold UserBackgroundInfo.showingRange. cbn [fst].
      fold sorted. unfold UserBackgroundInfo.itemsPerPage.
      unfold UserBackgroundInfo.totalPages, UserBackgroundInfo.itemsPerPage in Hp.
      fold sorted in Hp. nia. }
    assert (Hlast : last = Z.min (p * 25) (Z.of_nat (length sorted)))
      by reflexivity.
    assert (Heq : UserBackgroundInfo.currentItems stats activeCategory p
                  = segment sorted (Z.to_nat (first - 1)) (Z.to_nat last)).
    { rewrite Hfirst, Hlast.
      replace ((p - 1) * 25 + 1 - 1) with ((p - 1) * 25) by lia. exact Hsegment. }
    unfold UserBackgroundInfo.totalPages, UserBackgroundInfo.itemsPerPage in Hp.
    fold sorted in Hp.
    repeat split; try nia; [exact Heq|].
    rewrite Heq, segment_length; nia.
Qed.

Lemma showing_matches_page_witness :
  1 <= 2 <= NotesPage.totalPages Sample.notes
  /\ Z.of_nat (length (NotesPage.currentNotes referenceEngine Utc.runtime Sample.notes 2))
     = snd (showingRange 25 (Z.of_nat (length Sample.notes)) 2)
       - fst (showingRange 25 (Z.of_nat (length Sample.notes)) 2) + 1.
Proof.
  assert (Hp : 1 <= 2 <= NotesPage.totalPages Sample.notes)
    by (vm_compute; split; discriminate).
  split; [exact Hp|].
  destruct (showing_matches_page referenceEngine Utc.runtime) as (_ & Hnotes & _).
  pose proof (Hnotes Sample.notes 2 Hp) as H. cbv zeta in H.
  destruct H as (_ & _ & _ & Hlen). exact Hlen.
Defined.

(** X15: the "Latest Users" table lists the first ten users of the response
    in its order, or all of them when there are fewer. *)
Theorem latestUsersShown_first_ten stats :
  latestUsersShown stats = firstn 10 (latest_users stats)
  /\ length (latestUsersShown stats) = Nat.min 10 (length (latest_users stats)).
Proof.
  unfold latestUsersShown.
  rewrite arraySlice_firstn_skipn by lia.
  cbn [Z.sub Z.to_nat skipn]. split; [reflexivity|].
  apply length_firstn.
Qed.

(** ** The loading screen and the conversation card *)

Lemma progressAfter_succ fetches :
  progressAfter (S fetches) = updateProgress (progressAfter fetches).
Proof. reflexivity. Qed.

(** X18: the simulated progress.  After [k] completed requests the bar
    stands at [min (10 + 20 k) 90] percent: it never passes 90 before the
    data is complete, reaches 90 with the fourth request, and until then the
    estimated time stays at half a second or more; at 100 it is 0. *)
Theorem progress_capped (fetches : nat) :
  progressAfter fetches = Z.min (10 + 20 * Z.of_nat fetches) 90
  /\ 10 <= progressAfter fetches <= 90
  /\ ((4 <= fetches)%nat -> progressAfter fetches = 90)
  /\ (1 # 2 <= estimatedTime (progressAfter fetches))%Q
  /\ (estimatedTime 100 == 0)%Q.
Proof.
  assert (Hclosed : progressAfter fetches = Z.min (10 + 20 * Z.of_nat fetches) 90).
  { induction fetches as [|k IH]; [reflexivity|].
    rewrite progressAfter_succ, IH. unfold updateProgress. lia. }
  split; [exact Hclosed|]. split; [lia|]. split; [lia|]. split.
  - unfold estimatedTime.
    apply Qle_trans with (y := (5 - inject_Z (progressAfter fetches) / 20)%Q);
      [|apply Q.le_max_l].
    assert (Hle : (inject_Z (progressAfter fetches) <= inject_Z 90)%Q)
      by (rewrite <- Zle_Qle; lia).
    change (inject_Z 90) with 90%Q in Hle.
    unfold Qdiv. change (/ 20)%Q with (1 # 20)%Q. lra.
  - reflexivity.
Qed.

Lemma progress_capped_witness :
  (4 <= 5)%nat /\ progressAfter 5 = 90.
Proof.
  split; [lia|].
  apply (proj1 (proj2 (proj2 (progress_capped 5)))). lia.
Defined.

(** X19: the card and the average agree on what a rating is, except for 0.
    Every conversation that counts in the average shows its "Quality Rating"
    line; a conversation rated 0 is left out of the average and, unless it
    has an understandability or a comment, its card shows no "Additional
    Information" at all, although the rating is defined. *)
Theorem card_shows_counted_ratings conversations c :
  (In c (ratedConversations conversations) ->
     showsAdditionalInformation c = true /\ showsQualityRating c = true)
  /\ (forall q, ConversationInfo.quality_rating c = Some q ->
       PrimFloat.eqb q 0 = true ->
       ~ In c (ratedConversations conversations)
       /\ showsQualityRating c
          = truthy (ConversationInfo.understandability c)
            || truthyString (ConversationInfo.further_comments c)).
Proof.
  split.
  - intros Hin. unfold ratedConversations in Hin. apply filter_In in Hin.
    destruct Hin as [_ Htruthy].
    unfold showsQualityRating, showsAdditionalInformation. rewrite Htruthy.
    cbn [orb andb]. split; [reflexivity|].
    unfold truthy in Htruthy.
    destruct (ConversationInfo.quality_rating c); [reflexivity | discriminate].
  - intros q Hq Hzero.
    assert (Hfalsy : truthy (ConversationInfo.quality_rating c) = false)
      by (rewrite Hq; unfold truthy; now rewrite Hzero).
    split.
    + unfold ratedConversations. rewrite filter_In, Hfalsy. intros [_ H].
      discriminate H.
    + unfold showsQualityRating, showsAdditionalInformation.
      rewrite Hfalsy, Hq. cbn [isDefined orb]. now rewrite andb_true_r.
Qed.

Lemma card_shows_counted_ratings_witness :
  In (Sample.rated "c1" (Some 4%float)) (ratedConversations Sample.ratings)
  /\ showsQualityRating (Sample.rated "c1" (Some 4%float)) = true.
Proof.
  assert (Hin : In (Sample.rated "c1" (Some 4%float))
                  (ratedConversations Sample.ratings))
    by (vm_compute; left; reflexivity).
  split; [exact Hin|].
  exact (proj2 (proj1 (card_shows_counted_ratings Sample.ratings
                         (Sample.rated "c1" (Some 4%float))) Hin)).
Defined.
